(** * Playwright MCP server: session, transport and tool-dispatch core

    A shallow embedding of [src/server.ts], [src/tools/search.ts],
    [src/types.ts] and of the HTTP entry point (the session maps and the
    [handleSSE] / [handleStreamable] request handlers), followed by the
    properties of the dispatcher, the capability filter, the exit watchdog
    and the two transport adapters.

    Conventions.  JavaScript values that can reach the handlers are JSON
    values; [undefined] is [None].  Code that can throw, or that calls into
    the execution context, runs in the monad [M]: a log of the context calls
    made so far together with either a returned value or the thrown fault.
    Objects of the MCP SDK (servers, transports) are identified by a number;
    what the SDK does inside a call is not modelled, the call is recorded. *)

From Stdlib Require Import ZArith String List Ascii.
From Stdlib.Strings Require Import Byte.
From stdpp Require Import gmap strings list fin_maps pretty.

Set Warnings "-register-all".
Open Scope string_scope.

(** ** JavaScript values *)

Module Js.

(** JSON values.  Numbers are the integers, which print in decimal (below
    10^21 in magnitude); fractions are outside the model. *)
Inductive Json : Type :=
| JNull
| JBool (b : bool)
| JNum (n : Z)
| JStr (s : string)
| JArr (items : list Json)
| JObj (fields : list (string * Json)).

(** A plain object, as [JSON.parse] builds it: own data properties in
    insertion order, keys distinct. *)
Definition Obj : Type := list (string * Json).

(** A value or [undefined]. *)
Definition Val : Type := option Json.

(** The double quote character, for building message texts. *)
Definition dquote : string := String (ascii_of_nat 34) EmptyString.

(** Error objects: what [throw] carries in this program. *)
Record Fault : Type := mkFault { fault_name : string; fault_message : string }.

Definition TypeError (message : string) : Fault :=
  mkFault "TypeError" message.

(** [String(error)] on an Error object is [Error.prototype.toString]. *)
Definition String_ (error : Fault) : string :=
  if decide (fault_name error = EmptyString) then fault_message error
  else if decide (fault_message error = EmptyString) then fault_name error
  else fault_name error +:+ ": " +:+ fault_message error.

Inductive outcome (A : Type) : Type :=
| Returned (a : A)
| Threw (error : Fault).
Arguments Returned {A} a.
Arguments Threw {A} error.

Fixpoint get_own (key : string) (o : Obj) : Val :=
  match o with
  | [] => None
  | (k, v) :: rest => if String.eqb k key then Some v else get_own key rest
  end.

Definition has_own (key : string) (o : Obj) : bool :=
  match get_own key o with Some _ => true | None => false end.

(** [ToString] on a JSON value, as a template literal applies it.  A plain
    object prints through [Object.prototype.toString] unless an own
    property shadows [toString]: that property is not callable, the
    fallback [valueOf] returns the object itself, and the conversion throws.
    An array prints its elements joined by commas, [null] as the empty
    string. *)
Fixpoint ToString (v : Json) : outcome string :=
  match v with
  | JNull => Returned "null"
  | JBool true => Returned "true"
  | JBool false => Returned "false"
  | JNum n => Returned (pretty n)
  | JStr s => Returned s
  | JArr items =>
      (fix join (l : list Json) : outcome string :=
         match l with
         | [] => Returned EmptyString
         | x :: rest =>
             let element :=
               match x with
               | JNull => Returned EmptyString
               | _ => ToString x
               end in
             match element with
             | Threw e => Threw e
             | Returned s =>
                 match rest with
                 | [] => Returned s
                 | _ :: _ =>
                     match join rest with
                     | Threw e => Threw e
                     | Returned r => Returned (s +:+ "," +:+ r)
                     end
                 end
             end
         end) items
  | JObj fields =>
      if has_own "toString" fields
      then Threw (TypeError "Cannot convert object to primitive value")
      else Returned "[object Object]"
  end.

Definition ToString_val (v : Val) : outcome string :=
  match v with
  | None => Returned "undefined"
  | Some j => ToString j
  end.

(** [ToBoolean]. *)
Definition truthy (v : Val) : bool :=
  match v with
  | None | Some JNull => false
  | Some (JBool b) => b
  | Some (JNum n) => negb (Z.eqb n 0)
  | Some (JStr s) => negb (String.eqb s EmptyString)
  | Some (JArr _) | Some (JObj _) => true
  end.

(** [v ?? d]. *)
Definition nullish (v : Val) (d : Json) : Json :=
  match v with
  | None | Some JNull => d
  | Some j => j
  end.

(** [Buffer.prototype.toString('base64')]. *)
Definition base64_alphabet : list ascii :=
  list_ascii_of_string
    "ABCDEFGHIJKLMNOPQRSTUVWXYZabcdefghijklmnopqrstuvwxyz0123456789+/".

Definition base64_digit (n : N) : ascii :=
  nth (N.to_nat (N.land n 63)) base64_alphabet "="%char.

Fixpoint base64 (bytes : list byte) : string :=
  match bytes with
  | [] => EmptyString
  | [a] =>
      let n := N.shiftl (Byte.to_N a) 16 in
      String (base64_digit (N.shiftr n 18))
        (String (base64_digit (N.shiftr n 12)) "==")
  | [a; b] =>
      let n := N.lor (N.shiftl (Byte.to_N a) 16) (N.shiftl (Byte.to_N b) 8) in
      String (base64_digit (N.shiftr n 18))
        (String (base64_digit (N.shiftr n 12))
           (String (base64_digit (N.shiftr n 6)) "="))
  | a :: b :: c :: rest =>
      let n := N.lor (N.lor (N.shiftl (Byte.to_N a) 16)
                        (N.shiftl (Byte.to_N b) 8)) (Byte.to_N c) in
      String (base64_digit (N.shiftr n 18))
        (String (base64_digit (N.shiftr n 12))
           (String (base64_digit (N.shiftr n 6))
              (String (base64_digit n) (base64 rest))))
  end.

End Js.

Import Js.

(** ** Effects: the context calls a handler makes, and faults *)

Module Effects.

(** One entry per call into the execution context. *)
Inductive Call : Type :=
| call_ensureTab
| call_tab_navigate (url : Val)
| call_page_goto (url : Val)
| call_page_click (selector : Val)
| call_page_fill (selector text : Val)
| call_page_screenshot (fullPage : Json)
| call_page_waitForSelector (selector timeout : Val)
| call_page_goBack
| call_page_textContent (selector : Val)
| call_page_evaluate (expression : Val)
| call_browserContext_newPage
| call_newPage_goto (url : Val)
| call_closeTab (id : Val).

(** An [async] computation run to completion: the calls it made, in
    order, and how it settled. *)
Definition M (A : Type) : Type := (list Call * outcome A)%type.

Definition ret {A} (a : A) : M A := ([], Returned a).

Definition throw {A} (error : Fault) : M A := ([], Threw error).

Definition perform (c : Call) : M unit := ([c], Returned tt).

Definition lift {A} (o : outcome A) : M A := ([], o).

Definition bind {A B} (m : M A) (k : A -> M B) : M B :=
  match m with
  | (log, Returned a) => let '(log', r) := k a in ((log ++ log')%list, r)
  | (log, Threw error) => (log, Threw error)
  end.

(** [try { body } catch (error) { handler }]. *)
Definition try_catch {A} (body : M A) (handler : Fault -> M A) : M A :=
  match body with
  | (log, Returned a) => (log, Returned a)
  | (log, Threw error) => let '(log', r) := handler error in ((log ++ log')%list, r)
  end.

Definition calls {A} (m : M A) : list Call := fst m.
Definition settled {A} (m : M A) : outcome A := snd m.

End Effects.

Import Effects.

#[global] Instance M_ret : MRet M := @ret.
#[global] Instance M_bind : MBind M := fun A B k m => bind m k.

(** ** [src/types.ts] *)

Module Capability.
Inductive ToolCapability : Type :=
| core | history | console | dialogs | files | keyboard | network
| pdf | screenshot | tabs | testing | vision | wait.

#[global] Instance ToolCapability_eq_dec : EqDecision ToolCapability.
Proof. solve_decision. Defined.
End Capability.

Abbreviation ToolCapability := Capability.ToolCapability.

(** The zod schemas of the tools are objects of primitive fields, each
    possibly optional and carrying a description. *)
Module Zod.

Inductive Primitive : Type := string_ | number_ | boolean_.

Record Field : Type := mkField {
  key : string;
  primitive : Primitive;
  optional : bool;
  describe : string
}.

Definition Schema : Type := list Field.

Definition primitive_accepts (p : Primitive) (v : Json) : bool :=
  match p, v with
  | string_, JStr _ => true
  | number_, JNum _ => true
  | boolean_, JBool _ => true
  | _, _ => false
  end.

Definition field_accepts (f : Field) (input : Obj) : bool :=
  match get_own (key f) input with
  | None => optional f
  | Some v => primitive_accepts (primitive f) v
  end.

(** Whether [schema.safeParse(input)] succeeds: the input is an object,
    every required key is present with a value of its type, every
    optional key is absent or of its type; unknown keys are ignored.  The
    server never calls it; it says which arguments conform to a schema. *)
Definition accepts (schema : Schema) (input : option Obj) : bool :=
  match input with
  | None => false
  | Some o => forallb (fun f => field_accepts f o) schema
  end.

End Zod.

Module Types.

Inductive ToolType : Type := readOnly | destructive.

Record ToolSchema : Type := mkToolSchema {
  name : string;
  title : string;
  description : string;
  inputSchema : Zod.Schema;
  type : ToolType
}.

Inductive Content : Type :=
| TextContent (text : option string)
| ImageContent (data mimeType : string).

(** [{ content?: (ImageContent | TextContent)[] } | undefined | void]:
    the outer [None] is [undefined], the inner one a missing property. *)
Definition ToolActionResult : Type := option (option (list Content)).

Record ToolResult : Type := mkToolResult {
  code : list string;
  action : option (M ToolActionResult);
  captureSnapshot : bool;
  waitForNetwork : bool;
  resultOverride : option ToolActionResult
}.

(** The execution context, with the members the tools reach. *)
Record Page : Type := mkPage {
  goto : Val -> M unit;
  click : Val -> M unit;
  fill : Val -> Val -> M unit;
  screenshot : Json -> M (list byte);
  waitForSelector : Val -> Val -> M unit;
  goBack : M unit;
  textContent : Val -> M string;
  evaluate : Val -> M unit
}.

Record NewPage : Type := mkNewPage { newPage_goto : Val -> M unit }.

Record BrowserContext : Type := mkBrowserContext { newPage : M NewPage }.

Record Tab : Type := mkTab {
  page : Page;
  browserContext : BrowserContext;
  navigate : Val -> M unit
}.

Record Context : Type := mkContext {
  ensureTab : M Tab;
  closeTab : Val -> M unit
}.

Record Tool : Type := mkTool {
  capability : ToolCapability;
  schema : ToolSchema;
  handle : Context -> option Obj -> M ToolResult
}.

Definition ToolFactory : Type := bool -> Tool.

Definition defineTool (tool : Tool) : Tool := tool.

Record FullConfig : Type := mkFullConfig {
  vision : option bool;
  capabilities : option (list ToolCapability)
}.

End Types.

Import Types.

(** ** [src/tools/search.ts] *)

Module Search.

(** [params.key]: reading a property of the arguments.  The arguments are
    [undefined] when the request carries none, and the read throws. *)
Definition prop (params : option Obj) (key : string) : M Val :=
  match params with
  | None =>
      throw (TypeError ("Cannot read properties of undefined (reading '"
                        +:+ key +:+ "')"))
  | Some o => ret (get_own key o)
  end.

(** A value spliced into a template literal. *)
Definition splice (v : Val) : M string := lift (ToString_val v).

Definition z_object (fields : list Zod.Field) : Zod.Schema := fields.

Definition navigate : ToolFactory := fun captureSnapshot => defineTool {|
  capability := Capability.core;
  schema := {|
    name := "browser_navigate";
    title := "Navigate to a URL";
    description := "Navigate to a URL";
    inputSchema := z_object
      [Zod.mkField "url" Zod.string_ false "The URL to navigate to"];
    Types.type := destructive |};
  handle := fun context params =>
    tab ← ensureTab context;
    url ← prop params "url";
    Types.navigate tab url;;
    url ← prop params "url";
    s ← splice url;
    ret {| code := ["await page.goto('" +:+ s +:+ "');"];
           captureSnapshot := captureSnapshot;
           waitForNetwork := false;
           action := None;
           resultOverride := None |}
|}.

Definition click : ToolFactory := fun captureSnapshot => defineTool {|
  capability := Capability.core;
  schema := {|
    name := "browser_click";
    title := "Click on element";
    description := "Click on an element";
    inputSchema := z_object
      [Zod.mkField "selector" Zod.string_ false "CSS selector or text to click"];
    Types.type := destructive |};
  handle := fun context params =>
    tab ← ensureTab context;
    selector ← prop params "selector";
    Types.click (page tab) selector;;
    selector ← prop params "selector";
    s ← splice selector;
    ret {| code := ["await page.click('" +:+ s +:+ "');"];
           captureSnapshot := captureSnapshot;
           waitForNetwork := false;
           action := None;
           resultOverride := None |}
|}.

Definition type : ToolFactory := fun captureSnapshot => defineTool {|
  capability := Capability.core;
  schema := {|
    name := "browser_type";
    title := "Type text";
    description := "Type text into an input field";
    inputSchema := z_object
      [Zod.mkField "selector" Zod.string_ false "CSS selector for input field";
       Zod.mkField "text" Zod.string_ false "Text to type"];
    Types.type := destructive |};
  handle := fun context params =>
    tab ← ensureTab context;
    selector ← prop params "selector";
    text ← prop params "text";
    fill (page tab) selector text;;
    selector ← prop params "selector";
    s ← splice selector;
    text ← prop params "text";
    t ← splice text;
    ret {| code := ["await page.fill('" +:+ s +:+ "', '" +:+ t +:+ "');"];
           captureSnapshot := captureSnapshot;
           waitForNetwork := false;
           action := None;
           resultOverride := None |}
|}.

Definition screenshot : ToolFactory := fun captureSnapshot => defineTool {|
  capability := Capability.screenshot;
  schema := {|
    name := "browser_screenshot";
    title := "Take screenshot";
    description := "Take a screenshot of the current page";
    inputSchema := z_object
      [Zod.mkField "fullPage" Zod.boolean_ true "Capture full page"];
    Types.type := readOnly |};
  handle := fun context params =>
    tab ← ensureTab context;
    fullPage ← prop params "fullPage";
    screenshot ← Types.screenshot (page tab) (nullish fullPage (JBool false));
    fullPage ← prop params "fullPage";
    s ← splice (Some (nullish fullPage (JBool false)));
    ret {| code := ["await page.screenshot({ fullPage: " +:+ s +:+ " });"];
           captureSnapshot := false;
           waitForNetwork := false;
           action := Some (ret (Some (Some
             [ImageContent (base64 screenshot) "image/png"])));
           resultOverride := None |}
|}.

Definition wait : ToolFactory := fun captureSnapshot => defineTool {|
  capability := Capability.wait;
  schema := {|
    name := "browser_wait";
    title := "Wait for selector";
    description := "Wait for an element to appear";
    inputSchema := z_object
      [Zod.mkField "selector" Zod.string_ false "CSS selector to wait for";
       Zod.mkField "timeout" Zod.number_ true "Timeout in milliseconds"];
    Types.type := readOnly |};
  handle := fun context params =>
    tab ← ensureTab context;
    selector ← prop params "selector";
    timeout ← prop params "timeout";
    waitForSelector (page tab) selector timeout;;
    selector ← prop params "selector";
    s ← splice selector;
    timeout ← prop params "timeout";
    t ← splice (Some (nullish timeout (JNum 30000)));
    ret {| code := ["await page.waitForSelector('" +:+ s
                    +:+ "', { timeout: " +:+ t +:+ " });"];
           captureSnapshot := captureSnapshot;
           waitForNetwork := false;
           action := None;
           resultOverride := None |}
|}.

Definition goBack : ToolFactory := fun captureSnapshot => defineTool {|
  capability := Capability.history;
  schema := {|
    name := "browser_navigate_back";
    title := "Go back";
    description := "Go back to the previous page";
    inputSchema := z_object [];
    Types.type := readOnly |};
  handle := fun context _ =>
    tab ← ensureTab context;
    Types.goBack (page tab);;
    ret {| code := ["await page.goBack();"];
           captureSnapshot := captureSnapshot;
           waitForNetwork := false;
           action := None;
           resultOverride := None |}
|}.

Definition getText : ToolFactory := fun captureSnapshot => defineTool {|
  capability := Capability.core;
  schema := {|
    name := "browser_get_text";
    title := "Get text content";
    description := "Get text content of an element";
    inputSchema := z_object
      [Zod.mkField "selector" Zod.string_ false "CSS selector"];
    Types.type := readOnly |};
  handle := fun context params =>
    tab ← ensureTab context;
    selector ← prop params "selector";
    text ← textContent (page tab) selector;
    selector ← prop params "selector";
    s ← splice selector;
    ret {| code := ["await page.textContent('" +:+ s +:+ "');"];
           captureSnapshot := false;
           waitForNetwork := false;
           action := Some (ret (Some (Some
             [TextContent
                (Some (if truthy (Some (JStr text)) then text
                       else EmptyString))])));
           resultOverride := None |}
|}.

Definition newTab : ToolFactory := fun captureSnapshot => defineTool {|
  capability := Capability.tabs;
  schema := {|
    name := "browser_new_tab";
    title := "Open new tab";
    description := "Open a new browser tab";
    inputSchema := z_object
      [Zod.mkField "url" Zod.string_ true "URL to navigate to in new tab"];
    Types.type := destructive |};
  handle := fun context params =>
    tab ← ensureTab context;
    newPage ← Types.newPage (browserContext tab);
    url ← prop params "url";
    (if truthy url then newPage_goto newPage url else ret tt);;
    url ← prop params "url";
    line ← (if truthy url
            then s ← splice url; ret ("await newPage.goto('" +:+ s +:+ "');")
            else ret EmptyString);
    ret {| code := filter (fun l => negb (String.eqb l EmptyString))
                     ["const newPage = await context.newPage();"; line];
           captureSnapshot := captureSnapshot;
           waitForNetwork := false;
           action := None;
           resultOverride := None |}
|}.

Definition closeTab : ToolFactory := fun captureSnapshot => defineTool {|
  capability := Capability.tabs;
  schema := {|
    name := "browser_close_tab";
    title := "Close tab";
    description := "Close a browser tab";
    inputSchema := z_object
      [Zod.mkField "tabId" Zod.string_ false "Tab ID to close"];
    Types.type := destructive |};
  handle := fun context params =>
    tabId ← prop params "tabId";
    Types.closeTab context tabId;;
    ret {| code := ["await page.close();"];
           captureSnapshot := false;
           waitForNetwork := false;
           action := None;
           resultOverride := None |}
|}.

(** [page.evaluate] of the context returns nothing, and
    [JSON.stringify(undefined, null, 2)] is [undefined]. *)
Definition JSON_stringify_void (result : unit) : option string := None.

Definition evaluate : ToolFactory := fun captureSnapshot => defineTool {|
  capability := Capability.console;
  schema := {|
    name := "browser_evaluate";
    title := "Evaluate JavaScript";
    description := "Execute JavaScript in the browser context";
    inputSchema := z_object
      [Zod.mkField "expression" Zod.string_ false
         "JavaScript expression to evaluate"];
    Types.type := destructive |};
  handle := fun context params =>
    tab ← ensureTab context;
    expression ← prop params "expression";
    result ← Types.evaluate (page tab) expression;
    expression ← prop params "expression";
    s ← splice expression;
    ret {| code := ["await page.evaluate('" +:+ s +:+ "');"];
           captureSnapshot := false;
           waitForNetwork := false;
           action := Some (ret (Some (Some
             [TextContent (JSON_stringify_void result)])));
           resultOverride := None |}
|}.

Definition snapshotTools : list Tool :=
  [navigate true; click true; type true; screenshot true; wait true;
   goBack true; getText true; newTab true; closeTab true; evaluate true].

Definition visionTools : list Tool :=
  [navigate false; screenshot false; wait false; goBack false;
   getText false; newTab false; closeTab false; evaluate false].

End Search.

(** ** [src/server.ts] *)

Module Server.

Import Search.

(** *** The connection's context

    [createConnection] builds a context whose members all resolve at once
    and do nothing; each one is recorded in the call log. *)

Definition mock_page : Page := {|
  goto := fun url => perform (call_page_goto url);
  Types.click := fun selector => perform (call_page_click selector);
  fill := fun selector text => perform (call_page_fill selector text);
  Types.screenshot := fun fullPage =>
    perform (call_page_screenshot fullPage);; ret [];
  waitForSelector := fun selector timeout =>
    perform (call_page_waitForSelector selector timeout);
  Types.goBack := perform call_page_goBack;
  textContent := fun selector =>
    perform (call_page_textContent selector);; ret EmptyString;
  Types.evaluate := fun expression => perform (call_page_evaluate expression)
|}.

Definition mock_context : Context := {|
  ensureTab :=
    perform call_ensureTab;;
    ret {| page := mock_page;
           browserContext := {|
             newPage :=
               perform call_browserContext_newPage;;
               ret {| newPage_goto := fun url => perform (call_newPage_goto url) |}
           |};
           Types.navigate := fun url => perform (call_tab_navigate url) |};
  Types.closeTab := fun id => perform (call_closeTab id)
|}.

(** *** Tool filtering, lines 36-41 *)

Definition allTools (config : FullConfig) : list Tool :=
  match vision config with
  | Some true => visionTools
  | _ => snapshotTools
  end.

(** [capabilities?.includes(c)]: [undefined], hence falsy, without a list. *)
Definition includes (capabilities : option (list ToolCapability))
    (c : ToolCapability) : bool :=
  match capabilities with
  | None => false
  | Some l => bool_decide (c ∈ l)
  end.

Definition defined {A} (v : option A) : bool :=
  match v with Some _ => true | None => false end.

Definition keep (config : FullConfig) (tool : Tool) : bool :=
  negb (defined (capabilities config))
  || bool_decide (capability tool = Capability.core)
  || includes (capabilities config) (capability tool).

Definition filter_tools (allTools : list Tool) (config : FullConfig) : list Tool :=
  List.filter (keep config) allTools.

Definition tools (config : FullConfig) : list Tool :=
  filter_tools (allTools config) config.

(** *** The request handlers, lines 74-110 *)

Record McpTool : Type := mkMcpTool {
  tool_name : string;
  tool_description : string;
  tool_inputSchema : Json
}.

Record CallToolRequest : Type := mkCallToolRequest {
  params_name : string;
  params_arguments : option Obj
}.

Record CallToolResult : Type := mkCallToolResult {
  content : list Content;
  isError : option bool
}.

(** The [ListToolsRequestSchema] handler.  [zodToJsonSchema] belongs to a
    library and is taken as given. *)
Definition ListTools_handler (zodToJsonSchema : Zod.Schema -> Json)
    (tools : list Tool) : M (list McpTool) :=
  ret (map (fun tool => {|
              tool_name := name (schema tool);
              tool_description := description (schema tool);
              tool_inputSchema := zodToJsonSchema (inputSchema (schema tool))
            |}) tools).

Definition find_tool (tools : list Tool) (requested : string) : option Tool :=
  List.find (fun t => String.eqb (name (schema t)) requested) tools.

Definition not_found (requested : string) : CallToolResult := {|
  content := [TextContent
                (Some ("Tool " +:+ dquote +:+ requested +:+ dquote +:+ " not found"))];
  isError := Some true
|}.

Definition executed : CallToolResult := {|
  content := [TextContent (Some "Tool executed successfully")];
  isError := None
|}.

Definition failed (error : Fault) : CallToolResult := {|
  content := [TextContent (Some (String_ error))];
  isError := Some true
|}.

(** The [CallToolRequestSchema] handler. *)
Definition CallTool_handler (tools : list Tool) (context : Context)
    (request : CallToolRequest) : M CallToolResult :=
  match find_tool tools (params_name request) with
  | None => ret (not_found (params_name request))
  | Some tool =>
      try_catch
        (result ← handle tool context (params_arguments request);
         match action result with
         | Some action =>
             actionResult ← action;
             match actionResult with
             | Some (Some content) => ret {| content := content; isError := None |}
             | _ => ret executed
             end
         | None => ret executed
         end)
        (fun error => ret (failed error))
  end.

(** *** Connections and the server object *)

(** A connection owns one SDK server, named by a number, and the handlers
    registered on it close over its tools and context. *)
Record Connection : Type := mkConnection {
  server : nat;
  conn_tools : list Tool;
  conn_context : Context
}.

Record ServerState : Type := mkServerState {
  config : FullConfig;
  _connectionList : list Connection
}.

Definition new_Server (config : FullConfig) : ServerState :=
  {| config := config; _connectionList := [] |}.

(** [createConnection]: [fresh] names the SDK server the call constructs.
    The final [server.connect(transport)] is the SDK's. *)
Definition createConnection (fresh : nat) (s : ServerState)
    : ServerState * Connection :=
  let connection := {| server := fresh;
                       conn_tools := tools (config s);
                       conn_context := mock_context |} in
  ({| config := config s;
      _connectionList := (_connectionList s ++ [connection])%list |},
   connection).

Definition list_tools (zodToJsonSchema : Zod.Schema -> Json)
    (c : Connection) : M (list McpTool) :=
  ListTools_handler zodToJsonSchema (conn_tools c).

Definition call_tool (c : Connection) (request : CallToolRequest)
    : M CallToolResult :=
  CallTool_handler (conn_tools c) (conn_context c) request.

(** *** The exit watchdog, lines 118-131

    The process as [setupExitWatchdog] sees it: a clock in milliseconds,
    the guard [isExiting], the deadlines of the armed
    [setTimeout(() => process.exit(0), ...)] timers, the SDK servers whose
    [close()] has been called, the closes [handleExit] is still awaiting
    when it is suspended on [Promise.all], and the exit status once the
    process has ended. *)

Inductive Signal : Type := stdin_close | SIGINT | SIGTERM.

Record Process : Type := mkProcess {
  now : N;
  isExiting : bool;
  timers : list N;
  close_calls : list nat;
  awaiting : option (list nat);
  exitCode : option Z
}.

Definition setupExitWatchdog (start : N) : Process :=
  {| now := start; isExiting := false; timers := []; close_calls := [];
     awaiting := None; exitCode := None |}.

Definition process_exit (code : Z) (p : Process) : Process :=
  {| now := now p; isExiting := isExiting p; timers := timers p;
     close_calls := close_calls p; awaiting := None;
     exitCode := Some code |}.

(** [connection.close()] is [await this.server.close()]. *)
Definition close (c : Connection) : nat := server c.

(** [handleExit] up to its [await]. *)
Definition handleExit (s : ServerState) (p : Process) : Process :=
  if isExiting p then p
  else
    let closes := map close (_connectionList s) in
    {| now := now p;
       isExiting := true;
       timers := (now p + 15000)%N :: timers p;
       close_calls := (close_calls p ++ closes)%list;
       awaiting := Some closes;
       exitCode := exitCode p |}.

(** [handleExit] after its [await]: once every awaited close has
    fulfilled, [process.exit(0)]. *)
Definition resume (p : Process) : Process :=
  match awaiting p with
  | Some [] => process_exit 0 p
  | _ => p
  end.

(** The three registrations share the one handler. *)
Definition on_signal (sig : Signal) : ServerState -> Process -> Process :=
  match sig with
  | stdin_close => handleExit
  | SIGINT => handleExit
  | SIGTERM => handleExit
  end.

Definition settle (closed : nat) (p : Process) : Process :=
  {| now := now p; isExiting := isExiting p; timers := timers p;
     close_calls := close_calls p;
     awaiting := List.filter (fun pending => negb (Nat.eqb pending closed))
                   <$> awaiting p;
     exitCode := exitCode p |}.

Definition advance (ms : N) (p : Process) : Process :=
  {| now := (now p + ms)%N; isExiting := isExiting p; timers := timers p;
     close_calls := close_calls p; awaiting := awaiting p;
     exitCode := exitCode p |}.

Definition fire_timers (p : Process) : Process :=
  if existsb (fun deadline => N.leb deadline (now p)) (timers p)
  then process_exit 0 p
  else p.

(** A close that rejects while [handleExit] awaits it rejects the
    [Promise.all]: [handleExit] throws out of its [await], past
    [process.exit(0)]; nothing handles the rejection and the runtime ends
    the process with status 1. *)
Definition reject (closed : nat) (p : Process) : Process :=
  match awaiting p with
  | Some pending =>
      if existsb (Nat.eqb closed) pending then process_exit 1 p else p
  | None => p
  end.

(** What the event loop delivers: a termination signal, the settling of
    one server's [close()], fulfilled ([close_settled]) or rejected
    ([close_rejected]), or the passing of time.  A process that has exited
    takes no further step. *)
Inductive Event : Type :=
| signal (sig : Signal)
| close_settled (closed : nat)
| close_rejected (closed : nat)
| elapse (ms : N).

Definition step (s : ServerState) (p : Process) (e : Event) : Process :=
  match exitCode p with
  | Some _ => p
  | None =>
      match e with
      | signal sig => resume (on_signal sig s p)
      | close_settled closed => resume (settle closed p)
      | close_rejected closed => reject closed p
      | elapse ms => fire_timers (advance ms p)
      end
  end.

Definition run (s : ServerState) (p : Process) (events : list Event) : Process :=
  fold_left (step s) events p.

Definition elapsed (events : list Event) : N :=
  fold_right
    (fun e total => match e with elapse ms => (ms + total)%N | _ => total end)
    0%N events.

End Server.

(** ** The HTTP entry point: session maps, [handleSSE], [handleStreamable] *)

Module Http.

Record Session : Type := mkSession { transport : nat; connection : nat }.

(** The closures the handlers install on a transport. *)
Inductive Callback : Type :=
| onerror_delete (sessionId : string)
| onclose_delete (sessionId : string)
| onsessioninitialized_set (transport connection : nat).

Inductive TransportKind : Type :=
| SSEServerTransport (pathname : string)
| StreamableHTTPServerTransport.

Record Transport : Type := mkTransport {
  kind : TransportKind;
  open : bool;
  onerror : option Callback;
  onclose : option Callback;
  onsessioninitialized : option Callback
}.

Record Request : Type := mkRequest {
  method : string;
  pathname : string;
  headers : gmap string string;
  body : string
}.

(** What a handler does to the outside: response writes, the console, and
    calls into the SDK, whose own effects are not modelled. *)
Inductive Output : Type :=
| setHeader (name value : string)
| writeHead (status : nat) (contentType : option string)
| end_ (data : option string)
| console_error (message : string)
| server_connect (connection transport : nat)
| transport_handleRequest (transport : nat) (req : Request).

Record World : Type := mkWorld {
  streamableSessions : gmap string Session;
  sseSessions : gmap string Session;
  transports : gmap nat Transport;
  connections : nat;
  output : list Output
}.

Definition initial : World :=
  {| streamableSessions := ∅; sseSessions := ∅; transports := ∅;
     connections := 0; output := [] |}.

Definition emit (o : list Output) (w : World) : World :=
  {| streamableSessions := streamableSessions w; sseSessions := sseSessions w;
     transports := transports w; connections := connections w;
     output := (output w ++ o)%list |}.

(** [createConnection()], which forwards to a function imported from a file
    that is not among the sources: it is taken to yield a fresh connection,
    named by its rank. *)
Definition createConnection (w : World) : nat * World :=
  (connections w,
   {| streamableSessions := streamableSessions w; sseSessions := sseSessions w;
      transports := transports w; connections := S (connections w);
      output := output w |}).

(** [new ...Transport(...)]: a fresh transport, named by the least unused
    number. *)
Definition fresh_transport (w : World) : nat := fresh (dom (transports w)).

Definition set_transport (t : nat) (tr : Transport) (w : World) : World :=
  {| streamableSessions := streamableSessions w; sseSessions := sseSessions w;
     transports := <[t := tr]> (transports w); connections := connections w;
     output := output w |}.

Definition set_sseSessions (m : gmap string Session) (w : World) : World :=
  {| streamableSessions := streamableSessions w; sseSessions := m;
     transports := transports w; connections := connections w;
     output := output w |}.

Definition set_streamableSessions (m : gmap string Session) (w : World) : World :=
  {| streamableSessions := m; sseSessions := sseSessions w;
     transports := transports w; connections := connections w;
     output := output w |}.

(** The bodies the handlers write: [JSON.stringify] of
    [{ success: true }], [{ error: "Invalid JSON" }] and
    [{ status: "healthy" }]. *)
Definition body_success : string :=
  "{" +:+ dquote +:+ "success" +:+ dquote +:+ ":true}".
Definition body_invalid_json : string :=
  "{" +:+ dquote +:+ "error" +:+ dquote +:+ ":" +:+ dquote
  +:+ "Invalid JSON" +:+ dquote +:+ "}".
Definition body_healthy : string :=
  "{" +:+ dquote +:+ "status" +:+ dquote +:+ ":" +:+ dquote
  +:+ "healthy" +:+ dquote +:+ "}".

(** [handleSSE].  [randomUUID] is the identifier the runtime draws for a
    GET; [JSON_parse] answers [None] where [JSON.parse] throws.  A POST is
    followed to the end of its body. *)
Definition handleSSE (JSON_parse : string -> option Json) (randomUUID : string)
    (req : Request) (w : World) : World :=
  if String.eqb (method req) "GET" then
    let sessionId := randomUUID in
    let '(connection, w) := createConnection w in
    let transport := fresh_transport w in
    let w := set_transport transport
               {| kind := SSEServerTransport (pathname req); open := true;
                  onerror := None; onclose := None;
                  onsessioninitialized := None |} w in
    let w := set_sseSessions
               (<[sessionId := {| transport := transport;
                                  connection := connection |}]> (sseSessions w)) w in
    let w := set_transport transport
               {| kind := SSEServerTransport (pathname req); open := true;
                  onerror := Some (onerror_delete sessionId);
                  onclose := Some (onclose_delete sessionId);
                  onsessioninitialized := None |} w in
    emit [server_connect connection transport] w
  else if String.eqb (method req) "POST" then
    let session :=
      match headers req !! "x-session-id" with
      | Some sessionId => sseSessions w !! sessionId
      | None => None
      end in
    match session with
    | None =>
        emit [writeHead 404 (Some "text/plain"); end_ (Some "Session not found")] w
    | Some _ =>
        match JSON_parse (body req) with
        | Some message =>
            emit [writeHead 200 (Some "application/json");
                  end_ (Some body_success)] w
        | None =>
            emit [writeHead 400 (Some "application/json");
                  end_ (Some body_invalid_json)] w
        end
    end
  else w.

(** [handleStreamable].  An empty header value is falsy. *)
Definition handleStreamable (req : Request) (w : World) : World :=
  let existing :=
    match headers req !! "mcp-session-id" with
    | Some sessionId =>
        if negb (String.eqb sessionId EmptyString)
        then streamableSessions w !! sessionId
        else None
    | None => None
    end in
  match existing with
  | Some session => emit [transport_handleRequest (transport session) req] w
  | None =>
      let '(connection, w) := createConnection w in
      let transport := fresh_transport w in
      let w := set_transport transport
                 {| kind := StreamableHTTPServerTransport; open := true;
                    onerror := None; onclose := None;
                    onsessioninitialized :=
                      Some (onsessioninitialized_set transport connection) |} w in
      let w := emit [server_connect connection transport] w in
      emit [transport_handleRequest transport req] w
  end.

Definition startsWith (prefix s : string) : bool :=
  String.prefix prefix s.

(** The ["request"] listener of [startHttpServer] from its CORS headers on
    (lines 118-139), for a request whose URL has been parsed:
    [pathname req] is [url.pathname].  The parse itself is in [listener]
    below. *)
Definition on_request (JSON_parse : string -> option Json) (randomUUID : string)
    (req : Request) (w : World) : World :=
  let w := emit [setHeader "Access-Control-Allow-Origin" "*";
                 setHeader "Access-Control-Allow-Methods" "GET, POST, OPTIONS";
                 setHeader "Access-Control-Allow-Headers"
                   "Content-Type, mcp-session-id"] w in
  if String.eqb (method req) "OPTIONS" then
    emit [writeHead 200 None; end_ None] w
  else if String.eqb (pathname req) "/sse" || startsWith "/sse/" (pathname req) then
    handleSSE JSON_parse randomUUID req w
  else if String.eqb (pathname req) "/mcp" then
    handleStreamable req w
  else if String.eqb (pathname req) "/health" then
    emit [writeHead 200 (Some "application/json"); end_ (Some body_healthy)] w
  else
    emit [writeHead 404 (Some "text/plain"); end_ (Some "Not Found")] w.

(** The request as it comes in: [url] is the request-target. *)
Record IncomingMessage : Type := mkIncomingMessage {
  url : string;
  message_method : string;
  message_headers : gmap string string;
  message_body : string
}.

(** The ["request"] listener of [startHttpServer] whole (lines 115-140).
    It begins with [new URL(req.url, `http://${req.headers.host}`)], which
    throws on a request-target that does not parse: then nothing has been
    written, and the listener's promise rejects.  [URL_pathname target base]
    is the pathname of the parsed URL, [None] where [new URL] throws. *)
Definition listener (URL_pathname : string -> string -> option string)
    (JSON_parse : string -> option Json) (randomUUID : string)
    (req : IncomingMessage) (w : World) : outcome World :=
  let host := match message_headers req !! "host" with
              | Some h => h
              | None => "undefined"
              end in
  match URL_pathname (url req) ("http://" +:+ host) with
  | None => Threw (TypeError "Invalid URL")
  | Some pathname =>
      Returned
        (on_request JSON_parse randomUUID
           {| method := message_method req; pathname := pathname;
              headers := message_headers req; body := message_body req |} w)
  end.

(** Running an installed closure. *)
Definition run_callback (cb : Callback) (arg : string) (w : World) : World :=
  match cb with
  | onerror_delete sessionId =>
      set_sseSessions (delete sessionId (sseSessions w))
        (emit [console_error ("SSE transport error: " +:+ arg)] w)
  | onclose_delete sessionId =>
      set_sseSessions (delete sessionId (sseSessions w)) w
  | onsessioninitialized_set transport connection =>
      set_streamableSessions
        (<[arg := {| transport := transport; connection := connection |}]>
           (streamableSessions w)) w
  end.

(** What the SDK reports on a transport: an error (the transport stays as
    it is and [onerror] runs), the close of the transport ([onclose]
    runs), or a session identifier it assigned ([onsessioninitialized]
    runs).  The closures are those the handlers installed:
    [server.connect] is taken to keep them. *)
Inductive TransportEvent : Type :=
| transport_error (t : nat) (error : string)
| transport_closed (t : nat)
| session_initialized (t : nat) (sessionId : string).

Definition invoke (cb : option Callback) (arg : string) (w : World) : World :=
  match cb with
  | Some f => run_callback f arg w
  | None => w
  end.

Definition on_transport_event (e : TransportEvent) (w : World) : World :=
  match e with
  | transport_error t error =>
      match transports w !! t with
      | Some tr => invoke (onerror tr) error w
      | None => w
      end
  | transport_closed t =>
      match transports w !! t with
      | Some tr =>
          invoke (onclose tr) EmptyString
            (set_transport t
               {| kind := kind tr; open := false; onerror := onerror tr;
                  onclose := onclose tr;
                  onsessioninitialized := onsessioninitialized tr |} w)
      | None => w
      end
  | session_initialized t sessionId =>
      match transports w !! t with
      | Some tr => invoke (onsessioninitialized tr) sessionId w
      | None => w
      end
  end.

End Http.


(** ** [src/config.ts] *)

Module Config.

(** The configuration as [parseConfig] builds it from untyped options: a
    field holds whatever value the options held. *)
Record BrowserConfig : Type := mkBrowserConfig {
  browser : Json;
  headless : bool;
  proxy : Val;
  cdp : Val;
  context : Val;
  launchOptions : Val
}.

Record FullConfig : Type := mkFullConfig {
  config_browser : BrowserConfig;
  vision : Json;
  capabilities : Val;
  server : Val
}.

(** [v || d]. *)
Definition or_default (v : Val) (d : Json) : Json :=
  match v with
  | Some j => if truthy v then j else d
  | None => d
  end.

(** [v !== false]. *)
Definition is_not_false (v : Val) : bool :=
  match v with
  | Some (JBool false) => false
  | _ => true
  end.

(** [parseConfig]; the parameter defaults to the empty object. *)
Definition parseConfig (options : option Obj) : FullConfig :=
  let options := match options with Some o => o | None => [] end in
  {| config_browser := {|
       browser := or_default (get_own "browser" options) (JStr "chromium");
       headless := is_not_false (get_own "headless" options);
       proxy := get_own "proxy" options;
       cdp := get_own "cdp" options;
       context := Some (or_default (get_own "context" options) (JStr "isolated"));
       launchOptions := get_own "launchOptions" options |};
     vision := or_default (get_own "vision" options) (JBool false);
     capabilities := get_own "capabilities" options;
     server := get_own "server" options |}.

Definition validBrowsers : list string := ["chromium"; "firefox"; "webkit"].

Definition validContexts : list string :=
  ["isolated"; "persistent"; "cdp"; "remote"].

(** [list.includes(v)] on a list of strings: only an equal string is in. *)
Definition includes (l : list string) (v : Val) : bool :=
  match v with
  | Some (JStr s) => bool_decide (s ∈ l)
  | _ => false
  end.

(** [throw new Error(prefix + v)], the value spliced by a template. *)
Definition throw_invalid (prefix : string) (v : Val) : outcome unit :=
  match ToString_val v with
  | Returned s => Threw (mkFault "Error" (prefix +:+ s))
  | Threw e => Threw e
  end.

Definition validateConfig (config : FullConfig) : outcome unit :=
  if negb (includes validBrowsers (Some (browser (config_browser config))))
  then throw_invalid "Invalid browser: " (Some (browser (config_browser config)))
  else if truthy (context (config_browser config))
          && negb (includes validContexts (context (config_browser config)))
  then throw_invalid "Invalid context: " (context (config_browser config))
  else Returned tt.

End Config.

(** ** Command lines *)

(** What [parseInt] returns. *)
Inductive Number : Type := NaN | Int (z : Z).

Definition truthy_number (n : option Number) : bool :=
  match n with
  | Some (Int z) => negb (Z.eqb z 0)
  | _ => false
  end.

(** A string is truthy when it is there and not empty. *)
Definition truthy_string (s : option string) : bool :=
  match s with
  | Some s => negb (String.eqb s EmptyString)
  | None => false
  end.

(** [process.argv.slice(2)]. *)
Definition slice2 (argv : list string) : list string := skipn 2 argv.

(** The HTTP entry point: its [parseArgs] and the choice [main] makes.
    [parseInt] is the runtime's. *)
Module HttpMain.

Record Options : Type := mkOptions { port : option Number }.

(** The loop of [parseArgs] from index [i] on, [args] being what is left
    from there: a ["--port"] with a successor takes it and skips it. *)
Fixpoint scan (parseInt : string -> Number) (args : list string)
    (options : Options) : Options :=
  match args with
  | [] => options
  | arg :: rest =>
      if String.eqb arg "--port" then
        match rest with
        | value :: rest' => scan parseInt rest' {| port := Some (parseInt value) |}
        | [] => options
        end
      else scan parseInt rest options
  end.

Definition parseArgs (parseInt : string -> Number) (argv : list string)
    : Options :=
  scan parseInt (slice2 argv) {| port := None |}.

Inductive Mode : Type :=
| startHttpServer (port : Number)
| stdio.

(** [main]: [const port = options.port || 8000; if (port) ... else ...]. *)
Definition main (parseInt : string -> Number) (argv : list string) : Mode :=
  let options := parseArgs parseInt argv in
  let port := if truthy_number (port options)
              then match port options with Some n => n | None => Int 8000 end
              else Int 8000 in
  if truthy_number (Some port) then startHttpServer port else stdio.

End HttpMain.

(** The command-line parser of the server's own entry point. *)
Module Cli.

Record CliOptions : Type := mkCliOptions {
  port : option Number;
  stdio : bool;
  host : option string;
  vision : bool;
  headless : bool
}.

(** [args.indexOf(x)], [None] for -1. *)
Fixpoint indexOf (x : string) (args : list string) : option nat :=
  match args with
  | [] => None
  | a :: rest => if String.eqb a x then Some 0 else S <$> indexOf x rest
  end.

Definition includes (x : string) (args : list string) : bool :=
  existsb (String.eqb x) args.

(** [args[args.indexOf(flag) + 1]] when the flag is there and the successor
    is truthy. *)
Definition value_of (flag : string) (args : list string) : option string :=
  match indexOf flag args with
  | Some i =>
      if truthy_string (nth_error args (S i)) then nth_error args (S i) else None
  | None => None
  end.

Inductive Parsed : Type :=
| exit_after_help
| parsed (options : CliOptions).

Definition parseArgs (parseInt : string -> Number) (argv : list string)
    : Parsed :=
  let args := slice2 argv in
  if includes "--help" args || includes "-h" args then exit_after_help
  else parsed {|
    port := parseInt <$> value_of "--port" args;
    host := value_of "--host" args;
    stdio := includes "--stdio" args;
    vision := includes "--vision" args;
    headless := negb (includes "--headed" args)
  |}.

(** [main] of [src/index.ts], up to the start of the transport:
    [shouldUseHttp] and the port handed to the HTTP server.  [PORT] is the
    environment variable, [config_port] what the loaded configuration
    holds. *)
Definition shouldUseHttp (o : CliOptions) (PORT : option string) : bool :=
  truthy_number (port o) || (truthy_string PORT && negb (stdio o)).

Inductive Transport : Type :=
| http (port : option Number)
| stdio_transport.

Definition select (o : CliOptions) (PORT : option string)
    (config_port : option Number) : Transport :=
  if shouldUseHttp o PORT
  then http (if truthy_number (port o) then port o else config_port)
  else stdio_transport.

(** The configuration [main] hands to the server: no capability list. *)
Definition fullConfig (o : CliOptions) : Types.FullConfig :=
  {| Types.vision := Some (vision o || false);
     Types.capabilities := None |}.

End Cli.

(** ** Notions used in the statements *)

Import Search Server.

Definition is_core (tool : Tool) : bool :=
  bool_decide (capability tool = Capability.core).

Definition names (l : list Tool) : list string :=
  map (fun t => name (schema t)) l.

(** The tools of the two registries. *)
Definition registered (tool : Tool) : Prop :=
  In tool snapshotTools \/ In tool visionTools.

(** A server without a capability list, and one with an empty list. *)
Definition default_config : FullConfig :=
  {| vision := None; capabilities := None |}.

Definition core_only : FullConfig :=
  {| vision := None; capabilities := Some [] |}.

(** What the call-tool handler answers once the tool is found, by how the
    executor and its action settle. *)
Definition answer (run : outcome ToolResult) : outcome CallToolResult :=
  match run with
  | Threw error => Returned (failed error)
  | Returned result =>
      match action result with
      | None => Returned executed
      | Some (_, Threw error) => Returned (failed error)
      | Some (_, Returned (Some (Some content))) =>
          Returned {| content := content; isError := None |}
      | Some (_, Returned _) => Returned executed
      end
  end.

(** The executor, or the action it returned, threw. *)
Definition faulted (run : outcome ToolResult) : bool :=
  match run with
  | Threw _ => true
  | Returned result =>
      match action result with
      | Some (_, Threw _) => true
      | _ => false
      end
  end.

(** The same tool under another input schema. *)
Definition reschema (f : Tool -> Zod.Schema) (tool : Tool) : Tool :=
  {| capability := capability tool;
     schema := {| name := name (schema tool);
                  title := title (schema tool);
                  description := description (schema tool);
                  inputSchema := f tool;
                  Types.type := Types.type (schema tool) |};
     handle := handle tool |}.

(** A dispatcher that validated before executing would answer arguments
    the schema rejects with an error result and without a single context
    call. *)
Definition validates_before_executing (visible : list Tool) (context : Context)
    (request : CallToolRequest) : Prop :=
  forall tool,
    find_tool visible (params_name request) = Some tool ->
    Zod.accepts (inputSchema (schema tool)) (params_arguments request) = false ->
    calls (CallTool_handler visible context request) = []
    /\ exists response,
         settled (CallTool_handler visible context request) = Returned response
         /\ isError response = Some true.

(** The descriptor [ListTools_handler] builds for one tool. *)
Definition descriptor (zodToJsonSchema : Zod.Schema -> Json) (tool : Tool)
    : McpTool :=
  {| tool_name := name (schema tool);
     tool_description := description (schema tool);
     tool_inputSchema := zodToJsonSchema (inputSchema (schema tool)) |}.


Definition not_found_response : list Http.Output :=
  [Http.writeHead 404 (Some "text/plain"); Http.end_ (Some "Session not found")].


(** Rejection as the specification words it: the request is answered
    'session not found', and no session, connection or transport comes
    into being. *)
Definition rejected_not_found (before after : Http.World) : Prop :=
  after = Http.emit not_found_response before.

(** A stand-in for [JSON.parse] in the examples: it reads the three JSON
    keywords, on which it agrees with [JSON.parse], and rejects the rest. *)
Definition parse_keywords (text : string) : option Json :=
  if String.eqb text "null" then Some JNull
  else if String.eqb text "true" then Some (JBool true)
  else if String.eqb text "false" then Some (JBool false)
  else None.

(** SDK calls among the outputs. *)
Definition is_sdk_call (o : Http.Output) : bool :=
  match o with
  | Http.server_connect _ _ | Http.transport_handleRequest _ _ => true
  | _ => false
  end.

(** A suspended shutdown: the guard is set, the handler waits on closes
    that have not all settled, and the process runs. *)
Definition shutting_down (p : Process) : Prop :=
  exitCode p = None /\ isExiting p = true
  /\ match awaiting p with Some [] => False | _ => True end.

Definition exited_zero (p : Process) : Prop :=
  exitCode p = Some 0%Z /\ isExiting p = true.

(** Three connections on a server without a capability list. *)
Definition three_connections : ServerState :=
  fst (createConnection 2
         (fst (createConnection 1
                 (fst (createConnection 0 (new_Server default_config)))))).

(** A subscribe request on the event-stream path, the world after it is
    served from the start, a companion POST for that session, and a POST on
    the streaming path under an identifier no session has. *)
Definition sse_subscribe : Http.Request :=
  {| Http.method := "GET"; Http.pathname := "/sse"; Http.headers := ∅;
     Http.body := EmptyString |}.

Definition sse_opened : Http.World :=
  Http.handleSSE parse_keywords "session-1" sse_subscribe Http.initial.

Definition sse_post (text : string) : Http.Request :=
  {| Http.method := "POST"; Http.pathname := "/sse";
     Http.headers := {[ "x-session-id" := "session-1" ]};
     Http.body := text |}.

Definition unknown_session_post : Http.Request :=
  {| Http.method := "POST"; Http.pathname := "/mcp";
     Http.headers := {[ "mcp-session-id" := "never-created" ]};
     Http.body := "null" |}.

(** ** Further notions *)




Definition cors_headers : list Http.Output :=
  [Http.setHeader "Access-Control-Allow-Origin" "*";
   Http.setHeader "Access-Control-Allow-Methods" "GET, POST, OPTIONS";
   Http.setHeader "Access-Control-Allow-Headers" "Content-Type, mcp-session-id"].

(** The session maps, transports and connection count of two worlds agree. *)
Definition same_sessions (w w' : Http.World) : Prop :=
  Http.streamableSessions w' = Http.streamableSessions w
  /\ Http.sseSessions w' = Http.sseSessions w
  /\ Http.transports w' = Http.transports w
  /\ Http.connections w' = Http.connections w.

(** The paths the router hands to a session handler. *)
Definition session_path (pathname : string) : bool :=
  String.eqb pathname "/sse" || Http.startsWith "/sse/" pathname
  || String.eqb pathname "/mcp".

(** A server after connections were created on it, one per name. *)
Definition connect_all (config : FullConfig) (servers : list nat) : ServerState :=
  fold_left (fun s fresh => fst (createConnection fresh s)) servers
    (new_Server config).

Definition is_signal (e : Event) : bool :=
  match e with signal _ => true | _ => false end.

Definition is_rejection (e : Event) : bool :=
  match e with close_rejected _ => true | _ => false end.

(** No close rejects among the events. *)
Definition no_rejection (events : list Event) : Prop :=
  forallb (fun e => negb (is_rejection e)) events = true.

(** The close of a server is over, one way or the other. *)
Definition close_over (closed : nat) (events : list Event) : Prop :=
  In (close_settled closed) events \/ In (close_rejected closed) events.

(** Awaiting every close as the specification words it: after the first
    signal the process ends only once the close of every connection is
    over, or once the fallback timer is due. *)
Definition awaits_every_close (s : ServerState) (p : Process) (sig : Signal)
    (events : list Event) : Prop :=
  exitCode (run s (step s p (signal sig)) events) <> None ->
  (forall c, In c (_connectionList s) -> close_over (server c) events)
  \/ (15000 <= elapsed events)%N.

(** A stand-in for the pathname of [new URL(target, base)] in the examples:
    it takes an origin-form target without query as its own pathname, and
    fails on the target ["//"], which has no host and which [new URL]
    refuses. *)
Definition path_of_target (target base : string) : option string :=
  if String.eqb target "//" then None else Some target.

(** The base the listener parses the request-target against. *)
Definition listener_base (req : Http.IncomingMessage) : string :=
  "http://" +:+ match Http.message_headers req !! "host" with
                | Some h => h
                | None => "undefined"
                end.

(** A stand-in for [parseInt] in the examples: it reads a string of decimal
    digits, on which it agrees with [parseInt], and answers [NaN] on the
    rest. *)
Fixpoint read_digits (s : string) (acc : Z) : option Z :=
  match s with
  | EmptyString => Some acc
  | String c rest =>
      let d := (Z.of_nat (nat_of_ascii c) - 48)%Z in
      if (0 <=? d)%Z && (d <=? 9)%Z then read_digits rest (10 * acc + d)%Z
      else None
  end.

Definition parse_digits (s : string) : Number :=
  match s with
  | EmptyString => NaN
  | _ => match read_digits s 0 with Some z => Int z | None => NaN end
  end.

(** A handshake on the streaming path served from the start, the world once
    the SDK has reported the identifier it assigned, and a later request
    carrying that identifier. *)
Definition streamable_handshake : Http.Request :=
  {| Http.method := "POST"; Http.pathname := "/mcp"; Http.headers := ∅;
     Http.body := "null" |}.

Definition streamable_opened : Http.World :=
  Http.on_transport_event (Http.session_initialized 0 "s1")
    (Http.handleStreamable streamable_handshake Http.initial).

Definition streamable_post : Http.Request :=
  {| Http.method := "POST"; Http.pathname := "/mcp";
     Http.headers := {[ "mcp-session-id" := "s1" ]};
     Http.body := "true" |}.

(** * Properties *)

(** ** The capability filter *)

Lemma keep_absent vision tool :
  keep {| vision := vision; capabilities := None |} tool = true.
Proof. reflexivity. Qed.

Lemma keep_present vision caps tool :
  keep {| vision := vision; capabilities := Some caps |} tool = true
  <-> capability tool = Capability.core \/ In (capability tool) caps.
Proof.
  unfold keep, includes; cbn.
  rewrite orb_true_iff, !bool_decide_eq_true, list_elem_of_In. reflexivity.
Qed.

Lemma tools_of_empty_list vision :
  tools {| vision := vision; capabilities := Some [] |}
  = List.filter is_core (allTools {| vision := vision; capabilities := Some [] |}).
Proof.
  unfold tools, filter_tools. apply filter_ext. intros tool.
  unfold keep, includes, is_core; cbn.
  rewrite orb_false_r. reflexivity.
Qed.

Lemma filter_all_true {X} (f : X -> bool) (l : list X) :
  (forall x, f x = true) -> List.filter f l = l.
Proof.
  intros Hf. induction l as [| x l IH]; cbn; [done |].
  by rewrite Hf, IH.
Qed.

(** C1: the session's visible subset.  A tool of the active collection is in
    it exactly when no capability list is configured, or its capability is
    'core', or its capability is in the configured list; the subset is the
    collection filtered in order.  With an explicit empty list the subset is
    exactly the 'core' tools, with no list it is the whole collection, and on
    both registries these two differ. *)
Theorem C1_capability_filter :
  (forall (config : FullConfig) (tool : Tool),
      In tool (tools config)
      <-> In tool (allTools config)
          /\ match capabilities config with
             | None => True
             | Some caps =>
                 capability tool = Capability.core \/ In (capability tool) caps
             end)
  /\ (forall config, tools config = List.filter (keep config) (allTools config))
  /\ (forall vision,
        tools {| vision := vision; capabilities := None |}
        = allTools {| vision := vision; capabilities := None |})
  /\ (forall vision,
        tools {| vision := vision; capabilities := Some [] |}
        = List.filter is_core
            (allTools {| vision := vision; capabilities := Some [] |}))
  /\ (forall vision,
        tools {| vision := vision; capabilities := Some [] |}
        <> tools {| vision := vision; capabilities := None |}).
Proof.
  split; [| split; [| split; [| split]]].
  - intros [vision [caps |]] tool; unfold tools, filter_tools;
      rewrite filter_In.
    + by rewrite keep_present.
    + rewrite keep_absent. cbn. split; intros [Hin _]; auto.
  - reflexivity.
  - intros vision. unfold tools, filter_tools.
    apply filter_all_true. intros tool. apply keep_absent.
  - apply tools_of_empty_list.
  - intros vision Heq. apply (f_equal names) in Heq.
    destruct vision as [[|] |]; vm_compute in Heq; discriminate.
Qed.

(** A session restricted to 'core' sees four of the ten snapshot tools. *)
Example core_only_names :
  names (tools core_only)
  = ["browser_navigate"; "browser_click"; "browser_type"; "browser_get_text"]
  /\ length (tools default_config) = 10.
Proof. split; reflexivity. Qed.

(** ** The dispatcher *)

Lemma find_tool_none visible requested :
  (forall t, In t visible -> name (schema t) <> requested) ->
  find_tool visible requested = None.
Proof.
  intros Hno. unfold find_tool.
  destruct (List.find _ visible) as [t |] eqn:Hfind; [| done].
  apply find_some in Hfind as [Hin Heq].
  apply String.eqb_eq in Heq. by destruct (Hno t Hin).
Qed.

Lemma find_tool_reschema f visible requested :
  find_tool (map (reschema f) visible) requested
  = reschema f <$> find_tool visible requested.
Proof.
  unfold find_tool.
  induction visible as [| t visible IH]; cbn; [done |].
  destruct (String.eqb (name (schema t)) requested); [done | apply IH].
Qed.

Lemma CallTool_handler_found visible context request tool :
  find_tool visible (params_name request) = Some tool ->
  settled (CallTool_handler visible context request)
  = answer (settled (handle tool context (params_arguments request))).
Proof.
  intros Hfind. unfold CallTool_handler. rewrite Hfind.
  destruct (handle tool context (params_arguments request))
    as [log [result | error]]; [| reflexivity].
  unfold answer; cbn.
  destruct (action result) as [[log' [[[content |] |] | error]] |]; reflexivity.
Qed.

Lemma CallTool_handler_calls_found visible context request tool :
  find_tool visible (params_name request) = Some tool ->
  exists more,
    calls (CallTool_handler visible context request)
    = (calls (handle tool context (params_arguments request)) ++ more)%list.
Proof.
  intros Hfind. unfold CallTool_handler. rewrite Hfind.
  destruct (handle tool context (params_arguments request))
    as [log [result | error]];
    unfold mbind, M_bind, bind, try_catch, calls, ret; cbn.
  - destruct (action result) as [[log' [[[content |] |] | error]] |]; cbn;
      rewrite ?app_nil_r, <- ?app_assoc; eexists; try reflexivity.
    symmetry; apply app_nil_r.
  - exists []. by rewrite app_nil_r.
Qed.

Lemma CallTool_handler_returns visible context request :
  exists response,
    settled (CallTool_handler visible context request) = Returned response.
Proof.
  destruct (find_tool visible (params_name request)) as [tool |] eqn:Hfind.
  - rewrite (CallTool_handler_found _ _ _ _ Hfind). unfold answer.
    destruct (settled _) as [result | error]; [| eauto].
    destruct (action result) as [[log' [[[content |] |] | error]] |]; eauto.
  - unfold CallTool_handler. rewrite Hfind. cbn. eauto.
Qed.

Lemma answer_isError run response :
  answer run = Returned response ->
  (isError response = Some true <-> faulted run = true)
  /\ (isError response = None <-> faulted run = false).
Proof.
  unfold answer, faulted.
  destruct run as [result | error].
  - destruct (action result) as [[log' [[[content |] |] | error]] |];
      intros [= <-]; cbn; split; split; congruence.
  - intros [= <-]; cbn; split; split; congruence.
Qed.

Lemma CallTool_handler_reschema f visible context request :
  CallTool_handler (map (reschema f) visible) context request
  = CallTool_handler visible context request.
Proof.
  unfold CallTool_handler. rewrite find_tool_reschema.
  by destruct (find_tool visible (params_name request)).
Qed.

(** C2: a name outside the visible subset, whatever the reason, gets the one
    not-found answer: a single text item naming the tool, [isError] true, and
    no context call.  Two sessions in which the name is not visible, one
    hiding it and one never having had it, answer the same. *)
Theorem C2_not_visible_is_not_found :
  forall (visible other : list Tool) (context context' : Context)
         (requested : string) (arguments arguments' : option Obj),
    (forall t, In t visible -> name (schema t) <> requested) ->
    (forall t, In t other -> name (schema t) <> requested) ->
    CallTool_handler visible context (mkCallToolRequest requested arguments)
    = ([], Returned
             {| content :=
                  [TextContent
                     (Some ("Tool " +:+ dquote +:+ requested +:+ dquote
                            +:+ " not found"))];
                isError := Some true |})
    /\ CallTool_handler visible context (mkCallToolRequest requested arguments)
       = CallTool_handler other context' (mkCallToolRequest requested arguments').
Proof.
  intros visible other context context' requested arguments arguments' Hv Ho.
  unfold CallTool_handler; cbn.
  by rewrite (find_tool_none _ _ Hv), (find_tool_none _ _ Ho).
Qed.

Ltac decide_names H :=
  vm_compute in H;
  repeat (destruct H as [H | H]; [subst; vm_compute; discriminate |]);
  destruct H.

Lemma C2_not_visible_is_not_found_witness :
  (forall t, In t (tools core_only) -> name (schema t) <> "browser_screenshot")
  /\ In "browser_screenshot" (names (allTools core_only))
  /\ (forall t, In t (@nil Tool) -> name (schema t) <> "browser_screenshot")
  /\ CallTool_handler (tools core_only) mock_context
       (mkCallToolRequest "browser_screenshot" (Some []))
     = CallTool_handler [] mock_context
         (mkCallToolRequest "browser_screenshot" None).
Proof.
  assert (Hhidden : forall t, In t (tools core_only) ->
                      name (schema t) <> "browser_screenshot")
    by (intros t H; decide_names H).
  assert (Hnone : forall t, In t (@nil Tool) ->
                    name (schema t) <> "browser_screenshot")
    by (intros t H; destruct H).
  split; [exact Hhidden |].
  split; [vm_compute; tauto |].
  split; [exact Hnone |].
  exact (proj2 (C2_not_visible_is_not_found (tools core_only) [] mock_context
                  mock_context "browser_screenshot" (Some []) None
                  Hhidden Hnone)).
Defined.

(** C3 (as the code has it): the dispatcher hands the request's arguments to
    the executor as received; the input schema plays no part in the call.
    For a visible tool the answer is the same under any other schema, the
    executor's context calls are made with those arguments, and the handler
    always returns a tool result: an error result exactly when the executor
    or its action throws, a success payload otherwise. *)
Theorem C3_arguments_reach_executor_unvalidated :
  forall (visible : list Tool) (context : Context) (request : CallToolRequest)
         (tool : Tool),
    find_tool visible (params_name request) = Some tool ->
    (forall f, CallTool_handler (map (reschema f) visible) context request
               = CallTool_handler visible context request)
    /\ (exists more,
          calls (CallTool_handler visible context request)
          = (calls (handle tool context (params_arguments request)) ++ more)%list)
    /\ exists response,
         settled (CallTool_handler visible context request) = Returned response
         /\ (isError response = Some true
             <-> faulted (settled (handle tool context (params_arguments request)))
                 = true)
         /\ (isError response = None
             <-> faulted (settled (handle tool context (params_arguments request)))
                 = false).
Proof.
  intros visible context request tool Hfind.
  split; [intros f; apply CallTool_handler_reschema |].
  split; [by apply CallTool_handler_calls_found |].
  destruct (CallTool_handler_returns visible context request) as [response Hr].
  exists response. split; [exact Hr |].
  rewrite (CallTool_handler_found _ _ _ _ Hfind) in Hr.
  by apply answer_isError.
Qed.

Lemma C3_arguments_reach_executor_unvalidated_witness :
  find_tool (tools default_config) "browser_navigate" = Some (navigate true)
  /\ exists response,
       settled (CallTool_handler (tools default_config) mock_context
                  (mkCallToolRequest "browser_navigate" (Some [])))
       = Returned response
       /\ (isError response = Some true
           <-> faulted (settled (handle (navigate true) mock_context (Some [])))
               = true)
       /\ (isError response = None
           <-> faulted (settled (handle (navigate true) mock_context (Some [])))
               = false).
Proof.
  split; [reflexivity |].
  exact (proj2 (proj2 (C3_arguments_reach_executor_unvalidated
                         (tools default_config) mock_context
                         (mkCallToolRequest "browser_navigate" (Some []))
                         (navigate true) eq_refl))).
Defined.

(** C3 as worded fails: [browser_navigate] called with the empty object,
    which its schema rejects for want of [url], runs the executor and comes
    back as a success. *)
Lemma C3_invalid_arguments_succeed :
  ~ validates_before_executing (tools default_config) mock_context
      (mkCallToolRequest "browser_navigate" (Some [])).
Proof.
  intros Hclaim.
  destruct (Hclaim (navigate true) eq_refl eq_refl)
    as [_ (response & Hresponse & Herror)].
  vm_compute in Hresponse. injection Hresponse as <-. discriminate.
Qed.

(** The run behind it: the executor is entered, navigates to [undefined],
    and the handler reports success. *)
Example navigate_without_url :
  Zod.accepts (inputSchema (schema (navigate true))) (Some []) = false
  /\ CallTool_handler (tools default_config) mock_context
       (mkCallToolRequest "browser_navigate" (Some []))
     = ([call_ensureTab; call_tab_navigate None], Returned executed).
Proof. split; reflexivity. Qed.

(** With no arguments at all the executor throws on its first property
    read, and the fault comes back as an error result. *)
Example navigate_without_arguments :
  CallTool_handler (tools default_config) mock_context
    (mkCallToolRequest "browser_navigate" None)
  = ([call_ensureTab],
     Returned (failed (TypeError
       "Cannot read properties of undefined (reading 'url')"))).
Proof. reflexivity. Qed.

(** C4: a fault thrown by the executor, or by the action it returned, is
    caught by the handler and comes back as an error result whose one text
    item is the fault rendered as a string; no request makes the handler
    itself throw. *)
Theorem C4_faults_become_error_results :
  forall (visible : list Tool) (context : Context) (request : CallToolRequest)
         (tool : Tool) (error : Fault),
    find_tool visible (params_name request) = Some tool ->
    (settled (handle tool context (params_arguments request)) = Threw error
     \/ exists result log,
          settled (handle tool context (params_arguments request))
          = Returned result
          /\ action result = Some (log, Threw error)) ->
    settled (CallTool_handler visible context request)
    = Returned {| content := [TextContent (Some (String_ error))];
                  isError := Some true |}
    /\ forall request',
         exists response,
           settled (CallTool_handler visible context request')
           = Returned response.
Proof.
  intros visible context request tool error Hfind Hthrow.
  split; [| intros request'; apply CallTool_handler_returns].
  rewrite (CallTool_handler_found _ _ _ _ Hfind).
  destruct Hthrow as [-> | (result & log & -> & Hact)]; [reflexivity |].
  unfold answer. by rewrite Hact.
Qed.

Lemma C4_faults_become_error_results_witness :
  find_tool (tools default_config) "browser_navigate" = Some (navigate true)
  /\ settled (handle (navigate true) mock_context None)
     = Threw (TypeError "Cannot read properties of undefined (reading 'url')")
  /\ settled (CallTool_handler (tools default_config) mock_context
                (mkCallToolRequest "browser_navigate" None))
     = Returned
         {| content :=
              [TextContent
                 (Some "TypeError: Cannot read properties of undefined (reading 'url')")];
            isError := Some true |}.
Proof.
  split; [reflexivity |]. split; [reflexivity |].
  exact (proj1 (C4_faults_become_error_results
                  (tools default_config) mock_context
                  (mkCallToolRequest "browser_navigate" None) (navigate true)
                  (TypeError "Cannot read properties of undefined (reading 'url')")
                  eq_refl (or_introl eq_refl))).
Defined.

(** C8: the list-tools handler returns one descriptor per visible tool, in
    the subset's order, carrying the tool's name, its description and its
    input schema converted; it makes no context call. *)
Theorem C8_list_tools_descriptors :
  forall (zodToJsonSchema : Zod.Schema -> Json) (visible : list Tool),
    exists descriptors,
      ListTools_handler zodToJsonSchema visible = ([], Returned descriptors)
      /\ length descriptors = length visible
      /\ map tool_name descriptors = names visible
      /\ forall i,
           nth_error descriptors i
           = (fun tool =>
                {| tool_name := name (schema tool);
                   tool_description := description (schema tool);
                   tool_inputSchema :=
                     zodToJsonSchema (inputSchema (schema tool)) |})
             <$> nth_error visible i.
Proof.
  intros zodToJsonSchema visible.
  exists (map (descriptor zodToJsonSchema) visible).
  split; [reflexivity |].
  split; [apply length_map |].
  split; [unfold names; rewrite map_map; reflexivity |].
  intros i. rewrite nth_error_map. by destruct (nth_error visible i).
Qed.

(** ** The registered executors *)

Ltac settle_handle H :=
  cbn in H;
  unfold mbind, M_bind, bind, splice, lift, prop, ret, throw, perform in H;
  cbn in H;
  repeat match type of H with
         | context [ToString_val ?v] => destruct (ToString_val v); cbn in H
         | context [ToString ?v] => destruct (ToString v); cbn in H
         | context [truthy ?v] => destruct (truthy v); cbn in H
         end.

Lemma registered_content_nonempty tool arguments log result log' content :
  registered tool ->
  handle tool mock_context arguments = (log, Returned result) ->
  action result = Some (log', Returned (Some (Some content))) ->
  content <> [].
Proof.
  intros Hreg Hrun Hact.
  unfold registered, snapshotTools, visionTools in Hreg; cbn [In] in Hreg.
  destruct arguments as [o |];
    repeat (destruct Hreg as [Hreg | Hreg]; try done); subst tool;
    settle_handle Hrun; try discriminate;
    injection Hrun as <- <-; cbn in Hact; try discriminate;
    injection Hact as <- <-; discriminate.
Qed.

(** C9: when the executor returns, the answer is the fixed success payload,
    one text item 'Tool executed successfully' and no [isError], if the
    result has no action or the action yields no content; it is the action's
    content, verbatim and without [isError], if the action yields content,
    and only then; and the content a registered tool's action yields is
    never empty. *)
Theorem C9_success_payload :
  forall (visible : list Tool) (context : Context) (request : CallToolRequest)
         (tool : Tool) (log : list Call) (result : ToolResult),
    find_tool visible (params_name request) = Some tool ->
    handle tool context (params_arguments request) = (log, Returned result) ->
    let fixed := {| content := [TextContent (Some "Tool executed successfully")];
                    isError := None |} in
    (action result = None ->
     CallTool_handler visible context request = (log, Returned fixed))
    /\ (forall log',
          action result = Some (log', Returned None)
          \/ action result = Some (log', Returned (Some None)) ->
          CallTool_handler visible context request
          = ((log ++ log')%list, Returned fixed))
    /\ (forall log' content,
          action result = Some (log', Returned (Some (Some content))) ->
          CallTool_handler visible context request
          = ((log ++ log')%list,
             Returned {| content := content; isError := None |}))
    /\ (forall response,
          settled (CallTool_handler visible context request) = Returned response ->
          isError response = None ->
          response <> fixed ->
          exists log',
            action result
            = Some (log', Returned (Some (Some (content response)))))
    /\ (registered tool -> context = mock_context ->
        forall log' content,
          action result = Some (log', Returned (Some (Some content))) ->
          content <> []).
Proof.
  intros visible context request tool log result Hfind Hrun fixed.
  unfold CallTool_handler in *. rewrite Hfind in *. rewrite Hrun in *.
  unfold mbind, M_bind, bind, try_catch, ret, settled, answer in *; cbn in *.
  repeat split.
  - intros ->. by rewrite app_nil_r.
  - intros log' [-> | ->]; by rewrite app_nil_r.
  - intros log' content ->. by rewrite app_nil_r.
  - intros response Hresp Hok Hne.
    destruct (action result) as [[log' [[[content |] |] | error]] |];
      cbn in *; injection Hresp as <-; try done; eauto.
  - intros Hreg -> log' content Hact.
    by eapply registered_content_nonempty.
Qed.

Lemma C9_success_payload_witness :
  find_tool (tools default_config) "browser_get_text" = Some (getText true)
  /\ handle (getText true) mock_context (Some [("selector", JStr "h1")])
     = ([call_ensureTab; call_page_textContent (Some (JStr "h1"))],
        Returned
          {| code := ["await page.textContent('h1');"];
             action := Some ([], Returned (Some (Some [TextContent (Some EmptyString)])));
             captureSnapshot := false;
             waitForNetwork := false;
             resultOverride := None |})
  /\ CallTool_handler (tools default_config) mock_context
       (mkCallToolRequest "browser_get_text" (Some [("selector", JStr "h1")]))
     = ([call_ensureTab; call_page_textContent (Some (JStr "h1"))],
        Returned {| content := [TextContent (Some EmptyString)];
                    isError := None |}).
Proof.
  split; [reflexivity |]. split; [reflexivity |].
  exact (proj1 (proj2 (proj2
           (C9_success_payload (tools default_config) mock_context
              (mkCallToolRequest "browser_get_text"
                 (Some [("selector", JStr "h1")]))
              (getText true) _ _ eq_refl eq_refl)))
           [] [TextContent (Some EmptyString)] eq_refl).
Defined.

(** ** The exit watchdog *)

Lemma step_exited s p e code :
  exitCode p = Some code -> step s p e = p.
Proof. unfold step. by intros ->. Qed.

Lemma run_exited s events p code :
  exitCode p = Some code -> run s p events = p.
Proof.
  unfold run. induction events as [| e events IH]; cbn; [done |].
  intros Hp. rewrite (step_exited _ _ _ _ Hp). by apply IH.
Qed.

Lemma run_cons s p e events :
  run s p (e :: events) = run s (step s p e) events.
Proof. reflexivity. Qed.

Lemma on_signal_handleExit sig : on_signal sig = handleExit.
Proof. by destruct sig. Qed.

Lemma resume_cases p :
  isExiting p = true -> exitCode p = None ->
  exited_zero (resume p) \/ (shutting_down (resume p) /\ resume p = p).
Proof.
  intros Hg Hc. unfold resume.
  destruct (awaiting p) as [[| id l] |] eqn:Ha.
  - left. by split.
  - right. unfold shutting_down. by rewrite Ha.
  - right. unfold shutting_down. by rewrite Ha.
Qed.

Lemma reject_cases closed p :
  reject closed p = p
  \/ (exitCode (reject closed p) = Some 1%Z
      /\ exists pending, awaiting p = Some pending /\ In closed pending).
Proof.
  unfold reject. destruct (awaiting p) as [pending |]; [| by left].
  destruct (existsb (Nat.eqb closed) pending) eqn:Hex; [| by left].
  right. split; [done |]. exists pending. split; [done |].
  apply existsb_exists in Hex as (id & Hin & Heq).
  apply Nat.eqb_eq in Heq. by subst.
Qed.

(** One step of a suspended shutdown: it stays suspended, or the process
    ends with status 0 on an event that is no rejection, or it ends with
    status 1 on the rejection of a close still awaited. *)
Lemma step_cases s p e :
  shutting_down p ->
  shutting_down (step s p e)
  \/ (exited_zero (step s p e) /\ is_rejection e = false)
  \/ (exitCode (step s p e) = Some 1%Z
      /\ exists closed pending,
           e = close_rejected closed
           /\ awaiting p = Some pending /\ In closed pending).
Proof.
  intros Hs. assert (Hs' := Hs). destruct Hs' as (Hc & Hg & Ha).
  unfold step. rewrite Hc.
  destruct e as [sig | closed | closed | ms].
  - rewrite on_signal_handleExit. unfold handleExit. rewrite Hg.
    destruct (resume_cases p Hg Hc) as [? | [? _]]; auto.
  - destruct (resume_cases (settle closed p)) as [? | [? _]]; auto.
  - destruct (reject_cases closed p) as [-> | [H1 (pending & Hp & Hin)]];
      [by left |].
    right; right. split; [done |]. by exists closed, pending.
  - unfold fire_timers.
    destruct (existsb _ _); [right; left; by repeat split |].
    left. by split.
Qed.

(** What a step does to a shutdown that stays suspended. *)
Lemma step_alive s p e :
  shutting_down p ->
  shutting_down (step s p e) ->
  timers (step s p e) = timers p
  /\ close_calls (step s p e) = close_calls p
  /\ now (step s p e)
     = (now p + match e with elapse ms => ms | _ => 0 end)%N
  /\ (forall d, In d (timers p) -> (now (step s p e) < d)%N
                                  \/ is_signal e = true
                                  \/ (exists c, e = close_settled c)
                                  \/ exists c, e = close_rejected c)
  /\ awaiting (step s p e)
     = match e with
       | close_settled closed =>
           List.filter (fun pending => negb (Nat.eqb pending closed))
             <$> awaiting p
       | _ => awaiting p
       end.
Proof.
  intros (Hc & Hg & Ha) (Hc' & _ & _). revert Hc'. unfold step. rewrite Hc.
  destruct e as [sig | closed | closed | ms].
  - rewrite on_signal_handleExit. unfold handleExit. rewrite Hg.
    assert (resume p = p) as ->
      by (unfold resume; by destruct (awaiting p) as [[|] |]).
    intros _. repeat split; try lia; eauto.
  - intros Hc'.
    assert (resume (settle closed p) = settle closed p) as ->.
    { revert Hc'. unfold resume.
      by destruct (awaiting (settle closed p)) as [[|] |]. }
    repeat split; try (cbn; lia); eauto.
  - destruct (reject_cases closed p) as [-> | [H1 _]]; [| congruence].
    intros _. repeat split; try lia; eauto.
  - unfold fire_timers.
    destruct (existsb _ _) eqn:Hdue; [done |]. intros _.
    repeat split; try done. intros d Hin. left. cbn.
    destruct (N.ltb_spec (now p + ms) d) as [? | Hle]; [done |].
    assert (existsb (fun d => N.leb d (now p + ms)) (timers p) = true) as Hex;
      [| cbn in Hdue; congruence].
    apply existsb_exists. exists d. split; [done |]. by apply N.leb_le.
Qed.

Lemma signal_ignored s p sig :
  shutting_down p \/ exitCode p <> None -> step s p (signal sig) = p.
Proof.
  intros [(Hc & Hg & Ha) | Hc].
  - unfold step. rewrite Hc, on_signal_handleExit. unfold handleExit.
    rewrite Hg. unfold resume. by destruct (awaiting p) as [[|] |].
  - destruct (exitCode p) as [code |] eqn:Hcode; [| done].
    by eapply step_exited.
Qed.

Lemma step_stays s p e :
  shutting_down p \/ exitCode p <> None ->
  shutting_down (step s p e) \/ exitCode (step s p e) <> None.
Proof.
  intros [Hs | Hc].
  - destruct (step_cases s p e Hs) as [? | [[[H0 _] _] | [H1 _]]];
      [by left | right | right]; congruence.
  - destruct (exitCode p) as [code |] eqn:Hcode; [| done].
    right. rewrite (step_exited _ _ _ _ Hcode). congruence.
Qed.

Lemma run_stays s events p :
  shutting_down p \/ exitCode p <> None ->
  shutting_down (run s p events) \/ exitCode (run s p events) <> None.
Proof.
  revert p. induction events as [| e events IH]; intros p Hp; [done |].
  rewrite run_cons. apply IH. by apply step_stays.
Qed.

Lemma no_rejection_cons e events :
  no_rejection (e :: events) -> is_rejection e = false /\ no_rejection events.
Proof.
  unfold no_rejection; cbn. intros H. apply andb_prop in H as [He H].
  split; [by apply negb_true_iff | done].
Qed.

Lemma step_no_rejection s p e :
  shutting_down p \/ exited_zero p ->
  is_rejection e = false ->
  shutting_down (step s p e) \/ exited_zero (step s p e).
Proof.
  intros [Hs | Hz] He.
  - destruct (step_cases s p e Hs)
      as [? | [[? _] | [_ (closed & pending & -> & _)]]]; auto.
    discriminate.
  - right. by rewrite (step_exited _ _ _ _ (proj1 Hz)).
Qed.

Lemma run_no_rejection s events p :
  shutting_down p \/ exited_zero p ->
  no_rejection events ->
  shutting_down (run s p events) \/ exited_zero (run s p events).
Proof.
  revert p. induction events as [| e events IH]; intros p Hp Hno; [done |].
  apply no_rejection_cons in Hno as [He Hno].
  rewrite run_cons. apply IH; [| done]. by apply step_no_rejection.
Qed.

Lemma first_signal s p sig :
  isExiting p = false -> exitCode p = None ->
  step s p (signal sig)
  = resume {| now := now p; isExiting := true;
              timers := (now p + 15000)%N :: timers p;
              close_calls := (close_calls p ++ map server (_connectionList s))%list;
              awaiting := Some (map server (_connectionList s));
              exitCode := None |}.
Proof.
  intros Hg Hc. unfold step. rewrite Hc, on_signal_handleExit.
  unfold handleExit. by rewrite Hg, Hc.
Qed.

Lemma closes_settled_exit s events p :
  no_rejection events ->
  exited_zero p
  \/ (shutting_down p
      /\ exists pending,
           awaiting p = Some pending
           /\ forall id, In id pending -> In (close_settled id) events) ->
  exitCode (run s p events) = Some 0%Z.
Proof.
  revert p. induction events as [| e events IH]; intros p Hno Hp.
  - destruct Hp as [[Hc _] | [(Hc & Hg & Ha) (pending & Hp & Hall)]]; [done |].
    rewrite Hp in Ha. destruct pending as [| id l]; [done |].
    destruct (Hall id); by left.
  - apply no_rejection_cons in Hno as [He Hno].
    rewrite run_cons. apply IH; [done |].
    destruct Hp as [Hz | [Hs (pending & Hp & Hall)]].
    { left. by rewrite (step_exited _ _ _ _ (proj1 Hz)). }
    destruct (step_no_rejection s p e (or_introl Hs) He) as [Hs' | Hz];
      [| by left].
    right. split; [done |].
    destruct (step_alive s p e Hs Hs') as (_ & _ & _ & _ & Haw).
    rewrite Haw, Hp.
    destruct e as [sig | closed | closed | ms]; cbn.
    + exists pending. split; [done |].
      intros id Hin. by destruct (Hall id Hin).
    + eexists; split; [reflexivity |].
      intros id Hin. apply filter_In in Hin as [Hin Hne].
      destruct (Hall id Hin) as [[= ->] | ?]; [| done].
      by rewrite Nat.eqb_refl in Hne.
    + discriminate.
    + exists pending. split; [done |].
      intros id Hin. by destruct (Hall id Hin).
Qed.

Lemma timer_forces_exit s events p deadline :
  exitCode p <> None
  \/ (shutting_down p /\ In deadline (timers p) /\ (now p < deadline)%N) ->
  (deadline <= now p + elapsed events)%N ->
  exitCode (run s p events) <> None.
Proof.
  revert p. induction events as [| e events IH]; intros p Hp Hlate.
  - destruct Hp as [Hc | (_ & _ & Hnow)]; [done |]. cbn in Hlate. lia.
  - rewrite run_cons.
    destruct Hp as [Hc | (Hs & Hin & Hnow)].
    { destruct (exitCode p) as [code |] eqn:Hcode; [| done].
      rewrite (step_exited _ _ _ _ Hcode), (run_exited _ _ _ _ Hcode).
      congruence. }
    destruct (step_stays s p e (or_introl Hs)) as [Hs' | Hc'].
    + destruct (step_alive s p e Hs Hs') as (Ht & _ & Hn & Hdue & _).
      assert (Hsum : (now (step s p e) + elapsed events
                      = now p + elapsed (e :: events))%N).
      { rewrite Hn. destruct e; unfold elapsed; cbn; lia. }
      apply IH; [| lia].
      right. split; [done |]. split; [by rewrite Ht |].
      destruct (Hdue deadline Hin) as [? | Hother]; [done |].
      rewrite Hn.
      destruct e as [sig | closed | closed | ms]; try lia.
      destruct Hother as [[=] | [[c [=]] | [c [=]]]].
    + destruct (exitCode (step s p e)) as [code |] eqn:Hcode; [| done].
      rewrite (run_exited _ _ _ _ Hcode). congruence.
Qed.

Lemma alive_while_pending s events q pending :
  shutting_down q ->
  no_rejection events ->
  (forall d, In d (timers q) -> (now q + elapsed events < d)%N) ->
  (exists waiting, awaiting q = Some waiting /\ In pending waiting) ->
  ~ In (close_settled pending) events ->
  exitCode (run s q events) = None.
Proof.
  revert q. induction events as [| e events IH];
    intros q Hs Hno Hearly (waiting & Hw & Hin) Hnot.
  - apply Hs.
  - apply no_rejection_cons in Hno as [He Hno].
    rewrite run_cons.
    assert (Hs' := Hs). destruct Hs' as (Hc & Hg & Ha).
    assert (Hrest : ~ In (close_settled pending) events)
      by (intros H; apply Hnot; by right).
    assert (Hstep : shutting_down (step s q e)
                    /\ timers (step s q e) = timers q
                    /\ (now (step s q e) + elapsed events
                        = now q + elapsed (e :: events))%N
                    /\ exists waiting',
                         awaiting (step s q e) = Some waiting'
                         /\ In pending waiting').
    { unfold step. rewrite Hc.
      destruct e as [sig | closed | closed | ms]; [| | discriminate |].
      - rewrite on_signal_handleExit. unfold handleExit. rewrite Hg.
        assert (resume q = q) as ->.
        { unfold resume. rewrite Hw. by destruct waiting; [destruct Hin |]. }
        repeat split; try done. eauto.
      - assert (Hne : closed <> pending)
          by (intros ->; apply Hnot; by left).
        assert (Hkept : In pending
                          (List.filter (fun id => negb (Nat.eqb id closed))
                             waiting)).
        { apply filter_In. split; [done |].
          apply negb_true_iff, Nat.eqb_neq. congruence. }
        unfold resume, settle; cbn. rewrite Hw; cbn.
        destruct (List.filter _ waiting) as [| id l] eqn:Hf;
          [destruct Hkept |].
        cbn. unfold shutting_down; cbn.
        repeat split; try done. eauto.
      - change (elapsed (elapse ms :: events)) with (ms + elapsed events)%N.
        unfold fire_timers.
        assert (existsb (fun d => N.leb d (now (advance ms q)))
                  (timers (advance ms q)) = false) as ->.
        { apply not_true_is_false. intros Hex.
          apply existsb_exists in Hex as (d & Hd & Hle).
          apply N.leb_le in Hle. cbn in Hd, Hle.
          specialize (Hearly d Hd).
          change (elapsed (elapse ms :: events)) with (ms + elapsed events)%N
            in Hearly. lia. }
        unfold shutting_down, advance; cbn.
        repeat split; try done; try lia. eauto. }
    destruct Hstep as (Hs' & Ht & Hsum & Hw').
    apply IH; try done.
    intros d Hd. rewrite Ht in Hd. rewrite Hsum. by apply Hearly.
Qed.

(** C6 (as the code has it): the first termination signal sets the guard,
    arms the 15000 ms timer whose callback exits, calls [close] on every
    connection of the list and awaits them all.  If no close rejects, the
    process exits with code 0 once every close has fulfilled, at once if
    there is no connection, and, as long as some close is still pending
    and no timer is due, it has not exited.  In every case it has exited by
    the time 15000 ms have passed, and a termination signal that arrives
    after the first changes nothing. *)
Theorem C6_exit_watchdog :
  forall (s : ServerState) (p : Process) (sig : Signal),
    isExiting p = false ->
    exitCode p = None ->
    let first := step s p (signal sig) in
    isExiting first = true
    /\ timers first = (now p + 15000)%N :: timers p
    /\ close_calls first
       = (close_calls p ++ map server (_connectionList s))%list
    /\ (_connectionList s <> [] ->
        awaiting first = Some (map server (_connectionList s))
        /\ exitCode first = None)
    /\ (_connectionList s = [] -> exitCode first = Some 0%Z)
    /\ (forall events,
          no_rejection events ->
          (forall c, In c (_connectionList s) ->
                     In (close_settled (server c)) events) ->
          exitCode (run s first events) = Some 0%Z)
    /\ (forall events c,
          no_rejection events ->
          In c (_connectionList s) ->
          ~ In (close_settled (server c)) events ->
          (forall d, In d (timers first) -> (now p + elapsed events < d)%N) ->
          exitCode (run s first events) = None)
    /\ (forall events,
          (15000 <= elapsed events)%N ->
          exitCode (run s first events) <> None
          /\ (no_rejection events ->
              exitCode (run s first events) = Some 0%Z))
    /\ (forall events sig',
          step s (run s first events) (signal sig') = run s first events).
Proof.
  intros s p sig Hg Hc first.
  assert (Hfirst := first_signal s p sig Hg Hc). fold first in Hfirst.
  set (suspended := {| now := now p; isExiting := true;
                       timers := (now p + 15000)%N :: timers p;
                       close_calls := _; awaiting := _; exitCode := None |})
    in Hfirst.
  assert (Hstate : exited_zero first
                   \/ (shutting_down first /\ first = suspended)).
  { rewrite Hfirst. by apply resume_cases. }
  assert (Hshape : isExiting first = true
                   /\ timers first = (now p + 15000)%N :: timers p
                   /\ close_calls first
                      = (close_calls p ++ map server (_connectionList s))%list
                   /\ now first = now p).
  { rewrite Hfirst. unfold resume, suspended; cbn.
    by destruct (map server (_connectionList s)). }
  destruct Hshape as (H1 & H2 & H3 & H4).
  assert (Hzero : forall events,
             no_rejection events ->
             exitCode (run s first events) <> None ->
             exitCode (run s first events) = Some 0%Z).
  { intros events Hno Hended.
    destruct (run_no_rejection s events first) as [Hs | Hz]; try done.
    - destruct Hstate as [? | [? _]]; auto.
    - by destruct Hs.
    - apply Hz. }
  split; [done |]. split; [done |]. split; [done |].
  split; [| split; [| split; [| split; [| split]]]].
  - intros Hne. rewrite Hfirst. unfold resume, suspended; cbn.
    destruct (_connectionList s) as [| c l]; [done |]. by cbn.
  - intros Hempty. rewrite Hfirst. unfold resume, suspended; cbn.
    by rewrite Hempty.
  - intros events Hno Hall. apply closes_settled_exit; [done |].
    destruct Hstate as [? | [Hs Heq]]; [by left |].
    right. split; [done |]. rewrite Heq. cbn.
    eexists; split; [reflexivity |].
    intros id Hin. apply in_map_iff in Hin as (c & <- & Hin). by apply Hall.
  - intros events c Hno Hin Hnot Hearly.
    assert (Hpending : In (server c) (map server (_connectionList s)))
      by (apply in_map_iff; eauto).
    destruct Hstate as [[Hz _] | [Hs Heq]].
    { rewrite Hfirst in Hz. unfold resume, suspended in Hz; cbn in Hz.
      destruct (map server (_connectionList s)); [destruct Hpending | done]. }
    apply (alive_while_pending s events first (server c)); try done.
    + intros d Hd. rewrite H4. by apply Hearly.
    + rewrite Heq. cbn. eauto.
  - intros events Hlate.
    assert (Hended : exitCode (run s first events) <> None).
    { apply (timer_forces_exit s events first (now p + 15000)%N).
      - destruct Hstate as [[Hz _] | [Hs Heq]]; [left; congruence |].
        right. split; [done |]. rewrite H2, H4. split; [by left | lia].
      - rewrite H4. lia. }
    split; [done |]. intros Hno. by apply Hzero.
  - intros events sig'. apply signal_ignored.
    apply run_stays.
    destruct Hstate as [[Hz _] | [? _]]; [right; congruence | by left].
Qed.

Lemma C6_exit_watchdog_witness :
  isExiting (setupExitWatchdog 0) = false
  /\ exitCode (setupExitWatchdog 0) = None
  /\ map server (_connectionList three_connections) = [0; 1; 2]
  /\ exitCode
       (run three_connections
          (step three_connections (setupExitWatchdog 0) (signal SIGTERM))
          [close_settled 2; signal SIGINT; close_settled 0; close_settled 1])
     = Some 0%Z.
Proof.
  split; [reflexivity |]. split; [reflexivity |]. split; [reflexivity |].
  refine (proj1 (proj2 (proj2 (proj2 (proj2 (proj2
            (C6_exit_watchdog three_connections (setupExitWatchdog 0) SIGTERM
               eq_refl eq_refl))))))
            [close_settled 2; signal SIGINT; close_settled 0; close_settled 1]
            eq_refl _).
  intros c Hin. cbn in Hin.
  destruct Hin as [<- | [<- | [<- | []]]]; cbn; auto.
Defined.

(** C6 as worded fails: when the close of one connection rejects, the
    process ends, with status 1, while the closes of the two others are
    still pending and no time has passed. *)
Lemma C6_rejected_close_ends_early :
  ~ awaits_every_close three_connections (setupExitWatchdog 0) SIGTERM
      [close_rejected 0].
Proof.
  intros Hclaim.
  destruct Hclaim as [Hall | Hlate].
  - vm_compute. discriminate.
  - destruct (Hall (mkConnection 1 (tools default_config) mock_context))
      as [[H | []] | [H | []]]; [right; left; reflexivity | |]; discriminate.
  - vm_compute in Hlate. by apply Hlate.
Qed.

(** The run behind it. *)
Example rejected_close_status :
  exitCode
    (run three_connections
       (step three_connections (setupExitWatchdog 0) (signal SIGTERM))
       [close_rejected 0])
  = Some 1%Z.
Proof. reflexivity. Qed.

(** ** The transport adapters *)

Lemma handleSSE_post JSON_parse randomUUID post w :
  Http.method post = "POST" ->
  Http.handleSSE JSON_parse randomUUID post w
  = match Http.headers post !! "x-session-id" ≫= (Http.sseSessions w !!.) with
    | None => Http.emit not_found_response w
    | Some _ =>
        match JSON_parse (Http.body post) with
        | Some _ =>
            Http.emit [Http.writeHead 200 (Some "application/json");
                       Http.end_ (Some Http.body_success)] w
        | None =>
            Http.emit [Http.writeHead 400 (Some "application/json");
                       Http.end_ (Some Http.body_invalid_json)] w
        end
    end.
Proof.
  intros Hm. unfold Http.handleSSE. rewrite Hm. cbn.
  by destruct (Http.headers post !! "x-session-id").
Qed.

(** On the event-stream path a POST under an unknown or missing identifier
    is answered 404 'Session not found' and nothing else happens. *)
Lemma handleSSE_post_unknown_session JSON_parse randomUUID post w :
  Http.method post = "POST" ->
  (Http.headers post !! "x-session-id" = None
   \/ exists sessionId,
        Http.headers post !! "x-session-id" = Some sessionId
        /\ Http.sseSessions w !! sessionId = None) ->
  rejected_not_found w (Http.handleSSE JSON_parse randomUUID post w).
Proof.
  intros Hm Hunknown. unfold rejected_not_found.
  rewrite handleSSE_post by done.
  destruct Hunknown as [-> | (sessionId & -> & Hnone)]; cbn; [done |].
  by rewrite Hnone.
Qed.

(** On the streaming path an identifier the store does not hold is treated
    as no identifier: a connection and a transport are created and the
    request is handed to the new transport. *)
Lemma handleStreamable_unknown_session req w sessionId :
  Http.headers req !! "mcp-session-id" = Some sessionId ->
  Http.streamableSessions w !! sessionId = None ->
  let after := Http.handleStreamable req w in
  let t := Http.fresh_transport w in
  Http.connections after = S (Http.connections w)
  /\ Http.transports after
     = <[t := {| Http.kind := Http.StreamableHTTPServerTransport;
                 Http.open := true; Http.onerror := None;
                 Http.onclose := None;
                 Http.onsessioninitialized :=
                   Some (Http.onsessioninitialized_set t (Http.connections w)) |}]>
         (Http.transports w)
  /\ Http.output after
     = (Http.output w
        ++ [Http.server_connect (Http.connections w) t;
            Http.transport_handleRequest t req])%list
  /\ Http.streamableSessions after = Http.streamableSessions w.
Proof.
  intros Hh Hnone. unfold Http.handleStreamable. rewrite Hh.
  destruct (negb (String.eqb sessionId EmptyString)); rewrite ?Hnone; cbn;
    rewrite <- ?app_assoc; done.
Qed.

(** C5, at the failing input: a POST on the streaming path under an
    identifier that was never issued is not turned away.  The handler
    creates a connection and a transport and hands them the request; no
    response is written by the handler. *)
Theorem C5_unknown_session_id_is_not_rejected :
  Http.streamableSessions Http.initial !! "never-created" = None
  /\ Http.handleStreamable unknown_session_post Http.initial
     = {| Http.streamableSessions := ∅;
          Http.sseSessions := ∅;
          Http.transports :=
            {[ 0 := {| Http.kind := Http.StreamableHTTPServerTransport;
                       Http.open := true; Http.onerror := None;
                       Http.onclose := None;
                       Http.onsessioninitialized :=
                         Some (Http.onsessioninitialized_set 0 0) |} ]};
          Http.connections := 1;
          Http.output := [Http.server_connect 0 0;
                          Http.transport_handleRequest 0 unknown_session_post] |}
  /\ Http.output
       (Http.on_request parse_keywords "unused" unknown_session_post Http.initial)
     = [Http.setHeader "Access-Control-Allow-Origin" "*";
        Http.setHeader "Access-Control-Allow-Methods" "GET, POST, OPTIONS";
        Http.setHeader "Access-Control-Allow-Headers"
          "Content-Type, mcp-session-id";
        Http.server_connect 0 0;
        Http.transport_handleRequest 0 unknown_session_post]
  /\ ~ rejected_not_found Http.initial
         (Http.handleStreamable unknown_session_post Http.initial).
Proof.
  split; [reflexivity |]. split; [reflexivity |]. split; [reflexivity |].
  unfold rejected_not_found. intros Heq.
  apply (f_equal Http.connections) in Heq. vm_compute in Heq. discriminate.
Qed.

Lemma handleSSE_get JSON_parse randomUUID get w :
  Http.method get = "GET" ->
  let t := Http.fresh_transport w in
  let opened := Http.handleSSE JSON_parse randomUUID get w in
  Http.sseSessions opened
  = <[randomUUID := {| Http.transport := t;
                       Http.connection := Http.connections w |}]>
      (Http.sseSessions w)
  /\ Http.transports opened !! t
     = Some {| Http.kind := Http.SSEServerTransport (Http.pathname get);
               Http.open := true;
               Http.onerror := Some (Http.onerror_delete randomUUID);
               Http.onclose := Some (Http.onclose_delete randomUUID);
               Http.onsessioninitialized := None |}.
Proof.
  intros Hm. unfold Http.handleSSE. rewrite Hm. cbn.
  split; [reflexivity |]. apply lookup_insert_eq.
Qed.




(** C10: a POST on the event-stream path under a known identifier is
    answered 200 with the success object when its body parses and 400 with
    the 'Invalid JSON' error object when it does not; either way both session
    maps, the transports and the connections are as before, and the two
    response writes are all that happens: nothing is handed to the SDK. *)
Theorem C10_sse_post_is_acknowledged_only :
  forall (JSON_parse : string -> option Json) (randomUUID : string)
         (post : Http.Request) (w : Http.World) (sessionId : string)
         (session : Http.Session),
    Http.method post = "POST" ->
    Http.headers post !! "x-session-id" = Some sessionId ->
    Http.sseSessions w !! sessionId = Some session ->
    let after := Http.handleSSE JSON_parse randomUUID post w in
    let written :=
      match JSON_parse (Http.body post) with
      | Some _ => [Http.writeHead 200 (Some "application/json");
                   Http.end_ (Some ("{" +:+ dquote +:+ "success" +:+ dquote
                                    +:+ ":true}"))]
      | None => [Http.writeHead 400 (Some "application/json");
                 Http.end_ (Some ("{" +:+ dquote +:+ "error" +:+ dquote +:+ ":"
                                  +:+ dquote +:+ "Invalid JSON" +:+ dquote
                                  +:+ "}"))]
      end in
    Http.sseSessions after = Http.sseSessions w
    /\ Http.streamableSessions after = Http.streamableSessions w
    /\ Http.transports after = Http.transports w
    /\ Http.connections after = Http.connections w
    /\ Http.output after = (Http.output w ++ written)%list
    /\ forallb (fun o => negb (is_sdk_call o)) written = true.
Proof.
  intros JSON_parse randomUUID post w sessionId session Hm Hh Hs after written.
  subst after written. rewrite handleSSE_post by done.
  rewrite Hh; cbn. rewrite Hs.
  by destruct (JSON_parse (Http.body post)).
Qed.

Lemma C10_sse_post_is_acknowledged_only_witness :
  Http.method (sse_post "true") = "POST"
  /\ Http.headers (sse_post "true") !! "x-session-id" = Some "session-1"
  /\ Http.sseSessions sse_opened !! "session-1"
     = Some {| Http.transport := 0; Http.connection := 0 |}
  /\ Http.sseSessions
       (Http.handleSSE parse_keywords "unused" (sse_post "true") sse_opened)
     = Http.sseSessions sse_opened
  /\ Http.output
       (Http.handleSSE parse_keywords "unused" (sse_post "{") sse_opened)
     = (Http.output sse_opened
        ++ [Http.writeHead 400 (Some "application/json");
            Http.end_ (Some Http.body_invalid_json)])%list.
Proof.
  split; [reflexivity |]. split; [reflexivity |]. split; [reflexivity |].
  split.
  - exact (proj1 (C10_sse_post_is_acknowledged_only parse_keywords "unused"
                    (sse_post "true") sse_opened "session-1"
                    {| Http.transport := 0; Http.connection := 0 |}
                    eq_refl eq_refl eq_refl)).
  - exact (proj1 (proj2 (proj2 (proj2 (proj2
             (C10_sse_post_is_acknowledged_only parse_keywords "unused"
                (sse_post "{") sse_opened "session-1"
                {| Http.transport := 0; Http.connection := 0 |}
                eq_refl eq_refl eq_refl)))))).
Defined.

(** * Further properties *)

(** ** The registries and the dispatcher *)

Lemma tools_registered config tool :
  In tool (tools config) -> registered tool.
Proof.
  unfold tools, filter_tools, allTools, registered.
  rewrite filter_In. intros [Hin _].
  destruct (vision config) as [[|] |]; auto.
Qed.

Lemma names_filter_NoDup (f : Tool -> bool) (l : list Tool) :
  NoDup (names l) -> NoDup (names (List.filter f l)).
Proof.
  unfold names. induction l as [| t l IH]; cbn; [done |].
  rewrite NoDup_cons. intros [Hnotin Hnodup].
  destruct (f t); cbn; [| by apply IH].
  apply NoDup_cons. split; [| by apply IH].
  intros Hin. apply Hnotin.
  apply list_elem_of_In, in_map_iff in Hin as (t' & Heq & Hin).
  apply filter_In in Hin as [Hin _].
  apply list_elem_of_In, in_map_iff. eauto.
Qed.

Lemma registry_names_NoDup config : NoDup (names (allTools config)).
Proof.
  unfold allTools.
  destruct (vision config) as [[|] |];
    apply (bool_decide_unpack _); vm_compute; reflexivity.
Qed.

Lemma find_tool_unique (l : list Tool) (tool : Tool) :
  NoDup (names l) -> In tool l ->
  find_tool l (name (schema tool)) = Some tool.
Proof.
  unfold names, find_tool.
  induction l as [| t l IH]; cbn; [done |].
  rewrite NoDup_cons. intros [Hnotin Hnodup] [-> | Hin].
  - by rewrite String.eqb_refl.
  - destruct (String.eqb (name (schema t)) (name (schema tool))) eqn:Heq;
      [| by apply IH].
    apply String.eqb_eq in Heq. destruct Hnotin.
    rewrite Heq. apply list_elem_of_In, in_map_iff. eauto.
Qed.

Lemma visible_names_NoDup config : NoDup (names (tools config)).
Proof. apply names_filter_NoDup, registry_names_NoDup. Qed.

Lemma visible_tool_resolves config tool :
  In tool (tools config) ->
  find_tool (tools config) (name (schema tool)) = Some tool.
Proof. apply find_tool_unique, visible_names_NoDup. Qed.

(** X1: what a session lists it can call.  Under every configuration the
    visible names are pairwise distinct, and looking a visible tool up by
    its name in the visible subset finds that very tool. *)
Theorem X1_listed_tools_resolve :
  forall (config : FullConfig),
    NoDup (names (tools config))
    /\ forall tool,
         In tool (tools config) ->
         find_tool (tools config) (name (schema tool)) = Some tool.
Proof.
  intros config. split.
  - apply visible_names_NoDup.
  - apply visible_tool_resolves.
Qed.

Ltac settle_goal :=
  cbn;
  unfold mbind, M_bind, bind, splice, lift, prop, ret, throw, perform;
  cbn.

Lemma accepted_arguments_do_not_fault tool arguments :
  registered tool ->
  Zod.accepts (inputSchema (schema tool)) arguments = true ->
  faulted (settled (handle tool mock_context arguments)) = false.
Proof.
  intros Hreg Hacc.
  unfold registered, snapshotTools, visionTools in Hreg; cbn [In] in Hreg.
  destruct arguments as [o |]; [| discriminate].
  repeat (destruct Hreg as [Hreg | Hreg]; try done); subst tool;
    cbn in Hacc; unfold Zod.field_accepts in Hacc; cbn in Hacc;
    settle_goal;
    repeat match type of Hacc with
           | context [get_own ?k o] =>
               destruct (get_own k o) as [[| [|] | ? | ? | ? | ?] |];
               cbn in Hacc; try discriminate; cbn
           end;
    try reflexivity;
    repeat match goal with
           | |- context [if ?c then _ else _] => destruct c; cbn
           end;
    reflexivity.
Qed.

(** X2: arguments that conform to a tool's input schema never make a
    registered executor throw: in every session of the server the call
    comes back without [isError]. *)
Theorem X2_conforming_arguments_succeed :
  forall (config : FullConfig) (request : CallToolRequest) (tool : Tool),
    find_tool (tools config) (params_name request) = Some tool ->
    Zod.accepts (inputSchema (schema tool)) (params_arguments request) = true ->
    exists response,
      settled (CallTool_handler (tools config) mock_context request)
      = Returned response
      /\ isError response = None.
Proof.
  intros config request tool Hfind Hacc.
  destruct (CallTool_handler_returns (tools config) mock_context request)
    as [response Hr].
  exists response. split; [exact Hr |].
  rewrite (CallTool_handler_found _ _ _ _ Hfind) in Hr.
  apply answer_isError in Hr as [_ Hnone]. apply Hnone.
  apply accepted_arguments_do_not_fault; [| done].
  apply (tools_registered config).
  unfold find_tool in Hfind. by apply find_some in Hfind as [Hin _].
Qed.

Lemma X2_conforming_arguments_succeed_witness :
  find_tool (tools default_config) "browser_wait" = Some (wait true)
  /\ Zod.accepts (inputSchema (schema (wait true)))
       (Some [("selector", JStr "#done"); ("timeout", JNum 500)]) = true
  /\ exists response,
       settled (CallTool_handler (tools default_config) mock_context
                  (mkCallToolRequest "browser_wait"
                     (Some [("selector", JStr "#done"); ("timeout", JNum 500)])))
       = Returned response
       /\ isError response = None.
Proof.
  split; [reflexivity |]. split; [reflexivity |].
  exact (X2_conforming_arguments_succeed default_config
           (mkCallToolRequest "browser_wait"
              (Some [("selector", JStr "#done"); ("timeout", JNum 500)]))
           (wait true) eq_refl eq_refl).
Defined.

(** X3: a call that carries no arguments.  A registered executor whose
    schema has fields throws on its first property read, a TypeError naming
    the schema's first key, which comes back as the error result; the one
    tool with an empty schema runs to success. *)
Theorem X3_omitted_arguments :
  forall (config : FullConfig) (tool : Tool),
    In tool (tools config) ->
    settled (CallTool_handler (tools config) mock_context
               (mkCallToolRequest (name (schema tool)) None))
    = match inputSchema (schema tool) with
      | [] => Returned executed
      | first :: _ =>
          Returned
            {| content :=
                 [TextContent
                    (Some ("TypeError: Cannot read properties of undefined (reading '"
                           +:+ Zod.key first +:+ "')"))];
               isError := Some true |}
      end.
Proof.
  intros config tool Hin.
  unfold CallTool_handler; cbn [params_name params_arguments].
  rewrite (visible_tool_resolves config tool Hin).
  apply tools_registered in Hin.
  unfold registered, snapshotTools, visionTools in Hin; cbn [In] in Hin.
  repeat (destruct Hin as [Hin | Hin]; try done); subst tool; reflexivity.
Qed.

Lemma X3_omitted_arguments_witness :
  In (click true) (tools core_only)
  /\ settled (CallTool_handler (tools core_only) mock_context
                (mkCallToolRequest "browser_click" None))
     = Returned
         {| content :=
              [TextContent
                 (Some "TypeError: Cannot read properties of undefined (reading 'selector')")];
            isError := Some true |}.
Proof.
  assert (Hin : In (click true) (tools core_only))
    by (vm_compute; tauto).
  split; [exact Hin |].
  exact (X3_omitted_arguments core_only (click true) Hin).
Defined.

(** X4: every answer of the call-tool handler of a session carries at
    least one content item, whether the tool is missing, fails or
    succeeds. *)
Theorem X4_answers_carry_content :
  forall (config : FullConfig) (request : CallToolRequest),
    exists response,
      settled (CallTool_handler (tools config) mock_context request)
      = Returned response
      /\ content response <> [].
Proof.
  intros config request.
  destruct (CallTool_handler_returns (tools config) mock_context request)
    as [response Hr].
  exists response. split; [exact Hr |].
  destruct (find_tool (tools config) (params_name request)) as [tool |] eqn:Hfind.
  - rewrite (CallTool_handler_found _ _ _ _ Hfind) in Hr.
    assert (Hreg : registered tool).
    { apply (tools_registered config).
      unfold find_tool in Hfind. by apply find_some in Hfind as [Hin _]. }
    destruct (handle tool mock_context (params_arguments request))
      as [log [result | error]] eqn:Hrun; cbn in Hr.
    + destruct (action result) as [[log' [[[items |] |] | error]] |] eqn:Hact;
        injection Hr as <-; cbn; try discriminate.
      eapply registered_content_nonempty; eauto.
    + injection Hr as <-. discriminate.
  - unfold CallTool_handler in Hr. rewrite Hfind in Hr.
    injection Hr as <-. discriminate.
Qed.

(** ** The capability filter *)

(** X5: granting more never hides a tool.  A tool visible under a
    capability list is visible under every list that contains it and with
    no list at all; and a 'core' tool of the active collection is visible
    under every configuration. *)
Theorem X5_capabilities_monotone :
  forall (vision : option bool) (granted more : list ToolCapability)
         (tool : Tool),
    (forall c, In c granted -> In c more) ->
    (In tool (tools {| vision := vision; capabilities := Some granted |}) ->
     In tool (tools {| vision := vision; capabilities := Some more |})
     /\ In tool (tools {| vision := vision; capabilities := None |}))
    /\ (forall capabilities,
          In tool (allTools {| vision := vision; capabilities := capabilities |}) ->
          capability tool = Capability.core ->
          In tool (tools {| vision := vision; capabilities := capabilities |})).
Proof.
  intros vision granted more tool Hsub. split.
  - unfold tools, filter_tools. rewrite !filter_In.
    change (allTools {| vision := vision; capabilities := Some more |})
      with (allTools {| vision := vision; capabilities := Some granted |}).
    change (allTools {| vision := vision; capabilities := None |})
      with (allTools {| vision := vision; capabilities := Some granted |}).
    intros [Hin Hkeep]. rewrite keep_present in Hkeep.
    split; (split; [done |]); [rewrite keep_present | apply keep_absent].
    destruct Hkeep; auto.
  - intros [caps |] Hin Hcore; unfold tools, filter_tools; rewrite filter_In;
      (split; [done |]).
    + apply keep_present. by left.
    + apply keep_absent.
Qed.

Lemma X5_capabilities_monotone_witness :
  (forall c, In c [Capability.tabs] -> In c [Capability.wait; Capability.tabs])
  /\ In (newTab false)
       (tools {| vision := Some true; capabilities := Some [Capability.tabs] |})
  /\ In (newTab false)
       (tools {| vision := Some true;
                 capabilities := Some [Capability.wait; Capability.tabs] |}).
Proof.
  assert (Hsub : forall c, In c [Capability.tabs] ->
                           In c [Capability.wait; Capability.tabs])
    by (intros c [<- | []]; cbn; auto).
  assert (Hin : In (newTab false)
                  (tools {| vision := Some true;
                            capabilities := Some [Capability.tabs] |}))
    by (vm_compute; tauto).
  split; [exact Hsub |]. split; [exact Hin |].
  exact (proj1 (proj1 (X5_capabilities_monotone (Some true) [Capability.tabs]
                         [Capability.wait; Capability.tabs] (newTab false) Hsub)
                  Hin)).
Defined.

(** ** Connections *)

Lemma connect_all_snoc config servers fresh :
  connect_all config (servers ++ [fresh])
  = fst (createConnection fresh (connect_all config servers)).
Proof. unfold connect_all. by rewrite fold_left_app. Qed.

(** X6: a server keeps its configuration, and its connection list holds one
    connection per [createConnection], in call order, each with the tool
    subset of that configuration and the inert context. *)
Theorem X6_connections_share_the_subset :
  forall (config : FullConfig) (servers : list nat),
    Server.config (connect_all config servers) = config
    /\ map server (_connectionList (connect_all config servers)) = servers
    /\ forall c,
         In c (_connectionList (connect_all config servers)) ->
         conn_tools c = tools config /\ conn_context c = mock_context.
Proof.
  intros config servers.
  induction servers as [| fresh servers IH] using rev_ind.
  - cbn. repeat split; done.
  - rewrite connect_all_snoc. destruct IH as (Hc & Hs & Hall).
    unfold createConnection; cbn.
    split; [done |]. split.
    + by rewrite map_app, Hs.
    + intros c Hin. apply in_app_or in Hin as [Hin | [<- | []]]; [auto |].
      cbn. by rewrite Hc.
Qed.

(** ** The exit watchdog *)

(** X7: the watchdog ends the process only on a termination signal.
    Whatever closes settle and however much time passes, without a signal
    the guard stays down, nothing is closed and the process runs. *)
Theorem X7_no_exit_without_signal :
  forall (s : ServerState) (start : N) (events : list Event),
    forallb (fun e => negb (is_signal e)) events = true ->
    let p := run s (setupExitWatchdog start) events in
    exitCode p = None /\ isExiting p = false /\ close_calls p = []
    /\ now p = (start + elapsed events)%N.
Proof.
  intros s start events Hquiet.
  assert (Hgen : forall p,
             exitCode p = None -> isExiting p = false -> timers p = [] ->
             awaiting p = None -> close_calls p = [] ->
             let q := run s p events in
             exitCode q = None /\ isExiting q = false /\ close_calls q = []
             /\ now q = (now p + elapsed events)%N).
  { clear start. induction events as [| e events IH]; intros p Hc Hg Ht Ha Hcl.
    - cbn. repeat split; try done. lia.
    - cbn in Hquiet. apply andb_prop in Hquiet as [He Hquiet].
      specialize (IH Hquiet). rewrite run_cons.
      destruct e as [sig | closed | closed | ms]; [discriminate | | |].
      + assert (Hstep : step s p (close_settled closed) = p).
        { unfold step. rewrite Hc. unfold settle, resume; cbn. rewrite Ha; cbn.
          destruct p; cbn in *; by subst. }
        rewrite Hstep. by apply IH.
      + assert (Hstep : step s p (close_rejected closed) = p).
        { unfold step. rewrite Hc. unfold reject. by rewrite Ha. }
        rewrite Hstep. by apply IH.
      + assert (Hstep : step s p (elapse ms) = advance ms p).
        { unfold step. rewrite Hc. unfold fire_timers; cbn. by rewrite Ht. }
        rewrite Hstep.
        destruct (IH (advance ms p)) as (H1 & H2 & H3 & H4); try done.
        repeat split; try done.
        change (elapsed (elapse ms :: events)) with (ms + elapsed events)%N.
        rewrite H4. unfold advance; cbn. lia. }
  apply Hgen; done.
Qed.

Lemma X7_no_exit_without_signal_witness :
  forallb (fun e => negb (is_signal e))
    [elapse 20000; close_settled 0; elapse 5] = true
  /\ exitCode (run three_connections (setupExitWatchdog 0)
                 [elapse 20000; close_settled 0; elapse 5]) = None.
Proof.
  split; [reflexivity |].
  exact (proj1 (X7_no_exit_without_signal three_connections 0
                  [elapse 20000; close_settled 0; elapse 5] eq_refl)).
Defined.

(** X8: no early exit.  After the first signal on a freshly set up
    watchdog, as long as no close has rejected, the close of some
    connection has not fulfilled and less than 15000 ms have passed, the
    process is still running. *)
Theorem X8_no_exit_before_closes_or_timeout :
  forall (s : ServerState) (start : N) (sig : Signal) (events : list Event)
         (c : Connection),
    In c (_connectionList s) ->
    ~ In (close_settled (server c)) events ->
    no_rejection events ->
    (elapsed events < 15000)%N ->
    exitCode (run s (step s (setupExitWatchdog start) (signal sig)) events)
    = None.
Proof.
  intros s start sig events c Hin Hnot Hno Hearly.
  rewrite first_signal by done.
  assert (Hpending : In (server c) (map server (_connectionList s)))
    by (apply in_map_iff; eauto).
  unfold resume; cbn.
  destruct (map server (_connectionList s)) as [| id ids] eqn:Hmap;
    [destruct Hpending |].
  apply (alive_while_pending s events _ (server c)); try done.
  - cbn. intros d [<- | []]. lia.
  - cbn. eauto.
Qed.

Lemma X8_no_exit_before_closes_or_timeout_witness :
  In (mkConnection 1 (tools default_config) mock_context)
    (_connectionList three_connections)
  /\ ~ In (close_settled 1) [close_settled 0; elapse 14999; close_settled 2]
  /\ no_rejection [close_settled 0; elapse 14999; close_settled 2]
  /\ (elapsed [close_settled 0; elapse 14999; close_settled 2] < 15000)%N
  /\ exitCode
       (run three_connections
          (step three_connections (setupExitWatchdog 7) (signal SIGINT))
          [close_settled 0; elapse 14999; close_settled 2])
     = None.
Proof.
  assert (Hin : In (mkConnection 1 (tools default_config) mock_context)
                  (_connectionList three_connections))
    by (right; left; reflexivity).
  assert (Hnot : ~ In (close_settled 1)
                     [close_settled 0; elapse 14999; close_settled 2])
    by (intros [H | [H | [H | []]]]; discriminate).
  assert (Hno : no_rejection [close_settled 0; elapse 14999; close_settled 2])
    by reflexivity.
  assert (Hearly : (elapsed [close_settled 0; elapse 14999; close_settled 2]
                    < 15000)%N) by (vm_compute; reflexivity).
  split; [exact Hin |]. split; [exact Hnot |]. split; [exact Hno |].
  split; [exact Hearly |].
  exact (X8_no_exit_before_closes_or_timeout three_connections 7 SIGINT
           [close_settled 0; elapse 14999; close_settled 2]
           (mkConnection 1 (tools default_config) mock_context)
           Hin Hnot Hno Hearly).
Defined.

Lemma close_calls_frozen s q e :
  shutting_down q \/ exitCode q <> None ->
  close_calls (step s q e) = close_calls q.
Proof.
  intros [Hs | Hc].
  - destruct (step_cases s q e Hs) as [Hs' | [[[H0 _] _] | [H1 _]]].
    + by destruct (step_alive s q e Hs Hs') as (_ & Hcalls & _).
    + revert H0. destruct Hs as (Hc & Hg & Ha). unfold step. rewrite Hc.
      destruct e as [sig | closed | closed | ms].
      * rewrite on_signal_handleExit. unfold handleExit. rewrite Hg.
        unfold resume. by destruct (awaiting q) as [[|] |].
      * unfold resume, settle; cbn. by destruct (_ <$> awaiting q) as [[|] |].
      * unfold reject. destruct (awaiting q); [| done].
        by destruct (existsb _ _).
      * unfold fire_timers. by destruct (existsb _ _).
    + revert H1. destruct Hs as (Hc & Hg & Ha). unfold step. rewrite Hc.
      destruct e as [sig | closed | closed | ms].
      * rewrite on_signal_handleExit. unfold handleExit. rewrite Hg.
        unfold resume. by destruct (awaiting q) as [[|] |].
      * unfold resume, settle; cbn. by destruct (_ <$> awaiting q) as [[|] |].
      * unfold reject. destruct (awaiting q); [| done].
        by destruct (existsb _ _).
      * unfold fire_timers. by destruct (existsb _ _).
  - destruct (exitCode q) as [code |] eqn:Hcode; [| done].
    by rewrite (step_exited _ _ _ _ Hcode).
Qed.

Lemma run_exit_status s events q (ids : list nat) :
  exited_zero q
  \/ (shutting_down q
      /\ forall id waiting,
           awaiting q = Some waiting -> In id waiting -> In id ids) ->
  let final := run s q events in
  close_calls final = close_calls q
  /\ (exitCode final = None
      \/ exitCode final = Some 0%Z
      \/ (exitCode final = Some 1%Z
          /\ exists id, In (close_rejected id) events /\ In id ids)).
Proof.
  revert q. induction events as [| e events IH]; intros q Hq final.
  - subst final. cbn. split; [done |].
    destruct Hq as [[Hz _] | [(Hc & _) _]]; auto.
  - subst final. rewrite run_cons.
    destruct Hq as [Hz | [Hs Hsub]].
    { rewrite (step_exited _ _ _ _ (proj1 Hz)),
        (run_exited _ _ _ _ (proj1 Hz)).
      split; [done |]. right; left. apply Hz. }
    assert (Hcalls : close_calls (step s q e) = close_calls q)
      by (apply close_calls_frozen; by left).
    destruct (step_cases s q e Hs)
      as [Hs' | [[Hz _] | [H1 (closed & pending & -> & Hp & Hin)]]].
    + destruct (IH (step s q e)) as [Hc Hcode].
      { right. split; [done |].
        destruct (step_alive s q e Hs Hs') as (_ & _ & _ & _ & Haw).
        intros id waiting Hw Hin. rewrite Haw in Hw.
        destruct e as [sig | closed | closed | ms]; try by eapply Hsub.
        destruct (awaiting q) as [pending |] eqn:Hp; [| discriminate].
        injection Hw as <-. apply filter_In in Hin as [Hin _].
        by eapply Hsub. }
      split; [congruence |].
      destruct Hcode as [? | [? | (? & id & Hid & ?)]]; auto.
      right; right. split; [done |]. exists id. split; [by right | done].
    + rewrite (run_exited _ _ _ _ (proj1 Hz)).
      split; [done |]. right; left. apply Hz.
    + rewrite (run_exited _ _ _ _ H1).
      split; [done |]. right; right. split; [done |].
      exists closed. split; [by left | by eapply Hsub].
Qed.

(** X9: what the first signal closes is all that is ever closed.  The
    connection list is read once, at the first signal: whatever connections
    the server has gained since, and whatever happens next, no further
    close is called.  If the process ends, its status is 0, or 1 when a
    close the watchdog was awaiting has rejected. *)
Theorem X9_closes_fixed_at_first_signal :
  forall (s later : ServerState) (p : Process) (sig : Signal)
         (events : list Event),
    isExiting p = false ->
    exitCode p = None ->
    let final := run later (step s p (signal sig)) events in
    close_calls final
    = (close_calls p ++ map server (_connectionList s))%list
    /\ (exitCode final = None
        \/ exitCode final = Some 0%Z
        \/ (exitCode final = Some 1%Z
            /\ exists id,
                 In (close_rejected id) events
                 /\ In id (map server (_connectionList s)))).
Proof.
  intros s later p sig events Hg Hc final.
  assert (Hcalls : close_calls (step s p (signal sig))
                   = (close_calls p ++ map server (_connectionList s))%list).
  { rewrite first_signal by done. unfold resume; cbn.
    by destruct (map server (_connectionList s)). }
  rewrite <- Hcalls. subst final.
  apply run_exit_status.
  rewrite first_signal by done.
  set (suspended := {| now := now p; isExiting := true;
                       timers := (now p + 15000)%N :: timers p;
                       close_calls := _; awaiting := _; exitCode := None |}).
  destruct (resume_cases suspended eq_refl eq_refl) as [? | [Hs Heq]];
    [by left |].
  rewrite Heq in *. right. split; [done |].
  intros id waiting [= <-] Hin. done.
Qed.

Lemma X9_closes_fixed_at_first_signal_witness :
  isExiting (setupExitWatchdog 0) = false
  /\ exitCode (setupExitWatchdog 0) = None
  /\ close_calls
       (run (connect_all default_config [0; 1; 2; 3; 4])
          (step three_connections (setupExitWatchdog 0) (signal stdin_close))
          [signal SIGTERM; close_settled 0; elapse 1])
     = [0; 1; 2].
Proof.
  split; [reflexivity |]. split; [reflexivity |].
  exact (proj1 (X9_closes_fixed_at_first_signal three_connections
                  (connect_all default_config [0; 1; 2; 3; 4])
                  (setupExitWatchdog 0) stdin_close
                  [signal SIGTERM; close_settled 0; elapse 1]
                  eq_refl eq_refl)).
Defined.

(** ** The HTTP entry point *)

Lemma handleSSE_appends JSON_parse randomUUID req w :
  exists more,
    Http.output (Http.handleSSE JSON_parse randomUUID req w)
    = (Http.output w ++ more)%list.
Proof.
  unfold Http.handleSSE.
  destruct (String.eqb (Http.method req) "GET"); [cbn; eauto |].
  destruct (String.eqb (Http.method req) "POST");
    [| exists []; by rewrite app_nil_r].
  destruct (match Http.headers req !! "x-session-id" with
            | Some sessionId => Http.sseSessions w !! sessionId
            | None => None
            end); [| cbn; eauto].
  destruct (JSON_parse (Http.body req)); cbn; eauto.
Qed.

Lemma handleStreamable_appends req w :
  exists more,
    Http.output (Http.handleStreamable req w) = (Http.output w ++ more)%list.
Proof.
  unfold Http.handleStreamable.
  destruct (match Http.headers req !! "mcp-session-id" with
            | Some sessionId =>
                if negb (String.eqb sessionId EmptyString)
                then Http.streamableSessions w !! sessionId
                else None
            | None => None
            end); cbn; rewrite <- ?app_assoc; eauto.
Qed.

Lemma on_request_cors JSON_parse randomUUID req w :
  exists more,
    Http.output (Http.on_request JSON_parse randomUUID req w)
    = (Http.output w ++ cors_headers ++ more)%list.
Proof.
  unfold Http.on_request.
  set (w' := Http.emit _ w).
  assert (Hw' : Http.output w' = (Http.output w ++ cors_headers)%list)
    by reflexivity.
  destruct (String.eqb (Http.method req) "OPTIONS");
    [cbn; rewrite <- app_assoc; eauto |].
  destruct (_ || _).
  { destruct (handleSSE_appends JSON_parse randomUUID req w') as [more ->].
    rewrite Hw', <- app_assoc. eauto. }
  destruct (String.eqb (Http.pathname req) "/mcp").
  { destruct (handleStreamable_appends req w') as [more ->].
    rewrite Hw', <- app_assoc. eauto. }
  destruct (String.eqb (Http.pathname req) "/health");
    cbn; rewrite <- app_assoc; eauto.
Qed.

Lemma listener_unfold URL_pathname JSON_parse randomUUID req w :
  Http.listener URL_pathname JSON_parse randomUUID req w
  = match URL_pathname (Http.url req) (listener_base req) with
    | None => Threw (TypeError "Invalid URL")
    | Some pathname =>
        Returned
          (Http.on_request JSON_parse randomUUID
             {| Http.method := Http.message_method req;
                Http.pathname := pathname;
                Http.headers := Http.message_headers req;
                Http.body := Http.message_body req |} w)
    end.
Proof. reflexivity. Qed.

(** X10: the listener parses the request-target first.  When it parses,
    whatever the method and the path, the three CORS headers are the first
    thing written for the request; when it does not, the listener throws a
    TypeError and nothing is written, no header and no answer. *)
Theorem X10_cors_headers_come_first :
  forall (URL_pathname : string -> string -> option string)
         (JSON_parse : string -> option Json) (randomUUID : string)
         (req : Http.IncomingMessage) (w : Http.World),
    match URL_pathname (Http.url req) (listener_base req) with
    | None =>
        Http.listener URL_pathname JSON_parse randomUUID req w
        = Threw (TypeError "Invalid URL")
    | Some _ =>
        exists after more,
          Http.listener URL_pathname JSON_parse randomUUID req w
          = Returned after
          /\ Http.output after
             = (Http.output w
                ++ [Http.setHeader "Access-Control-Allow-Origin" "*";
                    Http.setHeader "Access-Control-Allow-Methods"
                      "GET, POST, OPTIONS";
                    Http.setHeader "Access-Control-Allow-Headers"
                      "Content-Type, mcp-session-id"]
                ++ more)%list
    end.
Proof.
  intros URL_pathname JSON_parse randomUUID req w.
  rewrite listener_unfold.
  destruct (URL_pathname (Http.url req) (listener_base req)) as [pathname |];
    [| reflexivity].
  destruct (on_request_cors JSON_parse randomUUID
              {| Http.method := Http.message_method req;
                 Http.pathname := pathname;
                 Http.headers := Http.message_headers req;
                 Http.body := Http.message_body req |} w) as [more Hmore].
  eexists; exists more. split; [reflexivity | exact Hmore].
Qed.

(** A request-target that does not parse: nothing is written for it. *)
Example unparseable_target_is_not_answered :
  Http.listener path_of_target parse_keywords "unused"
    (Http.mkIncomingMessage "//" "OPTIONS" {[ "host" := "localhost:8000" ]}
       EmptyString)
    sse_opened
  = Threw (TypeError "Invalid URL").
Proof. reflexivity. Qed.

(** X11: a preflight never reaches a session handler.  Of the requests
    whose URL parses, an OPTIONS request is answered 200 without a body on
    every path, the session paths included, and a request on a path other
    than the session paths gets the health answer or 404 'Not Found'; in
    both cases the session maps, the transports and the connections are
    untouched. *)
Theorem X11_requests_outside_the_session_handlers :
  forall (URL_pathname : string -> string -> option string)
         (JSON_parse : string -> option Json) (randomUUID : string)
         (req : Http.IncomingMessage) (w : Http.World) (pathname : string),
    URL_pathname (Http.url req) (listener_base req) = Some pathname ->
    Http.message_method req = "OPTIONS" \/ session_path pathname = false ->
    exists after,
      Http.listener URL_pathname JSON_parse randomUUID req w = Returned after
      /\ same_sessions w after
      /\ Http.output after
         = (Http.output w ++ cors_headers
            ++ (if String.eqb (Http.message_method req) "OPTIONS"
                then [Http.writeHead 200 None; Http.end_ None]
                else if String.eqb pathname "/health"
                then [Http.writeHead 200 (Some "application/json");
                      Http.end_ (Some Http.body_healthy)]
                else [Http.writeHead 404 (Some "text/plain");
                      Http.end_ (Some "Not Found")]))%list.
Proof.
  intros URL_pathname JSON_parse randomUUID req w pathname Hparsed Hout.
  rewrite listener_unfold, Hparsed.
  eexists. split; [reflexivity |].
  unfold Http.on_request. fold cors_headers. cbn [Http.method Http.pathname].
  destruct (String.eqb (Http.message_method req) "OPTIONS") eqn:Hm.
  - split; [by repeat split |]. cbn. by rewrite <- app_assoc.
  - destruct Hout as [Hopt | Hpath].
    { rewrite Hopt in Hm. discriminate. }
    unfold session_path in Hpath.
    apply orb_false_iff in Hpath as [Hsse Hmcp]. rewrite Hsse, Hmcp.
    destruct (String.eqb pathname "/health");
      (split; [by repeat split |]); cbn; by rewrite <- app_assoc.
Qed.

Lemma X11_requests_outside_the_session_handlers_witness :
  path_of_target "/mcp" "http://localhost:8000" = Some "/mcp"
  /\ exists after,
       Http.listener path_of_target parse_keywords "unused"
         (Http.mkIncomingMessage "/mcp" "OPTIONS"
            {[ "host" := "localhost:8000" ]} EmptyString)
         sse_opened
       = Returned after
       /\ same_sessions sse_opened after.
Proof.
  split; [reflexivity |].
  destruct (X11_requests_outside_the_session_handlers path_of_target
              parse_keywords "unused"
              (Http.mkIncomingMessage "/mcp" "OPTIONS"
                 {[ "host" := "localhost:8000" ]} EmptyString)
              sse_opened "/mcp" eq_refl (or_introl eq_refl))
    as (after & Hafter & Hsame & _).
  exists after. split; [exact Hafter | exact Hsame].
Defined.

(** X12: on the event-stream path a request that is neither GET nor POST
    (nor a preflight) is left without an answer: after the CORS headers
    nothing is written, no head and no end, and no state changes. *)
Theorem X12_other_methods_on_sse_get_no_answer :
  forall (JSON_parse : string -> option Json) (randomUUID : string)
         (req : Http.Request) (w : Http.World),
    Http.method req <> "OPTIONS" ->
    Http.method req <> "GET" ->
    Http.method req <> "POST" ->
    (Http.pathname req = "/sse" \/ Http.startsWith "/sse/" (Http.pathname req) = true) ->
    let after := Http.on_request JSON_parse randomUUID req w in
    same_sessions w after
    /\ Http.output after = (Http.output w ++ cors_headers)%list.
Proof.
  intros JSON_parse randomUUID req w Ho Hg Hp Hpath after. subst after.
  unfold Http.on_request, Http.handleSSE. fold cors_headers.
  apply String.eqb_neq in Ho, Hg, Hp. rewrite Ho, Hg, Hp.
  assert ((String.eqb (Http.pathname req) "/sse"
           || Http.startsWith "/sse/" (Http.pathname req)) = true) as ->.
  { destruct Hpath as [-> | ->]; [reflexivity | apply orb_true_r]. }
  by repeat split.
Qed.

Lemma X12_other_methods_on_sse_get_no_answer_witness :
  Http.method (Http.mkRequest "DELETE" "/sse/42" ∅ EmptyString) <> "OPTIONS"
  /\ Http.output
       (Http.on_request parse_keywords "unused"
          (Http.mkRequest "DELETE" "/sse/42" ∅ EmptyString) Http.initial)
     = cors_headers.
Proof.
  assert (H1 : Http.method (Http.mkRequest "DELETE" "/sse/42" ∅ EmptyString)
               <> "OPTIONS") by discriminate.
  assert (H2 : Http.method (Http.mkRequest "DELETE" "/sse/42" ∅ EmptyString)
               <> "GET") by discriminate.
  assert (H3 : Http.method (Http.mkRequest "DELETE" "/sse/42" ∅ EmptyString)
               <> "POST") by discriminate.
  split; [exact H1 |].
  exact (proj2 (X12_other_methods_on_sse_get_no_answer parse_keywords "unused"
                  (Http.mkRequest "DELETE" "/sse/42" ∅ EmptyString)
                  Http.initial H1 H2 H3 (or_intror eq_refl))).
Defined.

(** X13: subscribe, then post.  After a GET has opened a session, a POST
    under the identifier drawn for it is acknowledged, 200 or 400 by its
    body, and not answered 'Session not found'. *)
Theorem X13_sse_session_is_reachable_after_subscribe :
  forall (JSON_parse JSON_parse' : string -> option Json)
         (randomUUID randomUUID' : string) (get post : Http.Request)
         (w : Http.World),
    Http.method get = "GET" ->
    Http.method post = "POST" ->
    Http.headers post !! "x-session-id" = Some randomUUID ->
    let opened := Http.handleSSE JSON_parse randomUUID get w in
    Http.handleSSE JSON_parse' randomUUID' post opened
    = Http.emit
        (match JSON_parse' (Http.body post) with
         | Some _ => [Http.writeHead 200 (Some "application/json");
                      Http.end_ (Some Http.body_success)]
         | None => [Http.writeHead 400 (Some "application/json");
                    Http.end_ (Some Http.body_invalid_json)]
         end) opened.
Proof.
  intros JSON_parse JSON_parse' randomUUID randomUUID' get post w Hg Hp Hh opened.
  rewrite handleSSE_post by done. rewrite Hh; cbn.
  destruct (handleSSE_get JSON_parse randomUUID get w Hg) as [Hs _].
  fold opened in Hs. rewrite Hs, lookup_insert_eq.
  by destruct (JSON_parse' (Http.body post)).
Qed.

Lemma X13_sse_session_is_reachable_after_subscribe_witness :
  Http.method sse_subscribe = "GET"
  /\ Http.method (sse_post "null") = "POST"
  /\ Http.headers (sse_post "null") !! "x-session-id" = Some "session-1"
  /\ Http.handleSSE parse_keywords "unused" (sse_post "null") sse_opened
     = Http.emit [Http.writeHead 200 (Some "application/json");
                  Http.end_ (Some Http.body_success)] sse_opened.
Proof.
  split; [reflexivity |]. split; [reflexivity |]. split; [reflexivity |].
  exact (X13_sse_session_is_reachable_after_subscribe parse_keywords
           parse_keywords "session-1" "unused" sse_subscribe (sse_post "null")
           Http.initial eq_refl eq_refl eq_refl).
Defined.

Lemma handleStreamable_new req w :
  (Http.headers req !! "mcp-session-id" = None
   \/ Http.headers req !! "mcp-session-id" = Some EmptyString
   \/ exists sessionId,
        Http.headers req !! "mcp-session-id" = Some sessionId
        /\ Http.streamableSessions w !! sessionId = None) ->
  let t := Http.fresh_transport w in
  Http.handleStreamable req w
  = {| Http.streamableSessions := Http.streamableSessions w;
       Http.sseSessions := Http.sseSessions w;
       Http.transports :=
         <[t := {| Http.kind := Http.StreamableHTTPServerTransport;
                   Http.open := true; Http.onerror := None;
                   Http.onclose := None;
                   Http.onsessioninitialized :=
                     Some (Http.onsessioninitialized_set t (Http.connections w)) |}]>
           (Http.transports w);
       Http.connections := S (Http.connections w);
       Http.output :=
         (Http.output w
          ++ [Http.server_connect (Http.connections w) t;
              Http.transport_handleRequest t req])%list |}.
Proof.
  intros Hnew. unfold Http.handleStreamable.
  assert (match Http.headers req !! "mcp-session-id" with
          | Some sessionId =>
              if negb (String.eqb sessionId EmptyString)
              then Http.streamableSessions w !! sessionId
              else None
          | None => None
          end = None) as ->.
  { destruct Hnew as [-> | [-> | (sessionId & -> & Hnone)]]; try done.
    by destruct (negb _). }
  cbn. unfold Http.emit, Http.set_transport; cbn. by rewrite <- app_assoc.
Qed.

Lemma handleStreamable_known req w sessionId session :
  Http.headers req !! "mcp-session-id" = Some sessionId ->
  sessionId <> EmptyString ->
  Http.streamableSessions w !! sessionId = Some session ->
  Http.handleStreamable req w
  = Http.emit [Http.transport_handleRequest (Http.transport session) req] w.
Proof.
  intros Hh Hne Hs. unfold Http.handleStreamable. rewrite Hh.
  apply String.eqb_neq in Hne. by rewrite Hne, Hs.
Qed.

(** X14: handshake, then reuse.  A request without a session identifier
    gets a new connection and a new transport; once the SDK has reported
    the identifier it assigned on that transport, a request carrying the
    identifier is handed to that same transport, and no connection or
    transport is created for it. *)
Theorem X14_streamable_session_is_reused :
  forall (first next : Http.Request) (w : Http.World) (sessionId : string),
    Http.headers first !! "mcp-session-id" = None ->
    Http.headers next !! "mcp-session-id" = Some sessionId ->
    sessionId <> EmptyString ->
    let t := Http.fresh_transport w in
    let initialized :=
      Http.on_transport_event (Http.session_initialized t sessionId)
        (Http.handleStreamable first w) in
    Http.streamableSessions initialized !! sessionId
    = Some {| Http.transport := t; Http.connection := Http.connections w |}
    /\ Http.connections initialized = S (Http.connections w)
    /\ Http.handleStreamable next initialized
       = Http.emit [Http.transport_handleRequest t next] initialized.
Proof.
  intros first next w sessionId Hfirst Hnext Hne t initialized.
  assert (Hinit : Http.streamableSessions initialized !! sessionId
                  = Some {| Http.transport := t;
                            Http.connection := Http.connections w |}
                  /\ Http.connections initialized = S (Http.connections w)).
  { subst initialized. rewrite handleStreamable_new by auto.
    unfold Http.on_transport_event; cbn. fold t.
    rewrite lookup_insert_eq; cbn. split; [apply lookup_insert_eq | done]. }
  destruct Hinit as [Hs Hc].
  split; [done |]. split; [done |].
  by rewrite (handleStreamable_known next initialized sessionId _ Hnext Hne Hs).
Qed.

Lemma X14_streamable_session_is_reused_witness :
  Http.headers streamable_handshake !! "mcp-session-id" = None
  /\ Http.headers streamable_post !! "mcp-session-id" = Some "s1"
  /\ "s1" <> EmptyString
  /\ Http.handleStreamable streamable_post streamable_opened
     = Http.emit [Http.transport_handleRequest 0 streamable_post]
         streamable_opened.
Proof.
  assert (Hfirst : Http.headers streamable_handshake !! "mcp-session-id" = None)
    by reflexivity.
  assert (Hnext : Http.headers streamable_post !! "mcp-session-id" = Some "s1")
    by reflexivity.
  assert (Hne : "s1" <> EmptyString) by discriminate.
  split; [exact Hfirst |]. split; [exact Hnext |]. split; [exact Hne |].
  exact (proj2 (proj2 (X14_streamable_session_is_reused streamable_handshake
                         streamable_post Http.initial "s1" Hfirst Hnext Hne))).
Defined.







(** ** Configuration *)

Lemma throw_invalid_throws prefix v :
  Config.throw_invalid prefix v <> Returned tt.
Proof. unfold Config.throw_invalid. by destruct (ToString_val v). Qed.

Lemma or_default_truthy v d :
  truthy (Some d) = true -> truthy (Some (Config.or_default v d)) = true.
Proof.
  intros Hd. unfold Config.or_default.
  destruct v as [j |]; [| done]. by destruct (truthy (Some j)) eqn:Hj.
Qed.

Lemma includes_or_default (l : list string) (v : Val) (d : string) :
  In d l ->
  Config.includes l (Some (Config.or_default v (JStr d))) = true
  <-> truthy v = false \/ exists s, v = Some (JStr s) /\ In s l.
Proof.
  intros Hd.
  assert (Hdefault : Config.includes l (Some (JStr d)) = true)
    by (cbn; by apply bool_decide_eq_true, list_elem_of_In).
  unfold Config.or_default. destruct v as [j |].
  - destruct (truthy (Some j)) eqn:Hj.
    + split.
      * intros Hin. right. destruct j; try discriminate.
        cbn in Hin. apply bool_decide_eq_true, list_elem_of_In in Hin. eauto.
      * intros [? | (s & [= ->] & Hin)]; [discriminate |].
        cbn. by apply bool_decide_eq_true, list_elem_of_In.
    + split; [by left | done].
  - split; [by left | done].
Qed.

(** X16: which options pass.  [validateConfig] accepts what [parseConfig]
    builds exactly when the browser option is falsy (the default,
    chromium, is taken) or one of the three browser names, and the context
    option is falsy (isolated is taken) or one of the four context names.
    A browser given as any other non-empty string is reported as
    'Invalid browser: ' followed by it, whatever the context. *)
Theorem X16_options_that_validate :
  forall (options : option Obj),
    let o := match options with Some o => o | None => [] end in
    (Config.validateConfig (Config.parseConfig options) = Returned tt
     <-> (truthy (get_own "browser" o) = false
          \/ exists s, get_own "browser" o = Some (JStr s)
                       /\ In s ["chromium"; "firefox"; "webkit"])
         /\ (truthy (get_own "context" o) = false
             \/ exists s, get_own "context" o = Some (JStr s)
                          /\ In s ["isolated"; "persistent"; "cdp"; "remote"]))
    /\ forall s,
         get_own "browser" o = Some (JStr s) ->
         s <> EmptyString ->
         ~ In s ["chromium"; "firefox"; "webkit"] ->
         Config.validateConfig (Config.parseConfig options)
         = Threw (mkFault "Error" ("Invalid browser: " +:+ s)).
Proof.
  intros options o.
  pose proof (includes_or_default Config.validBrowsers (get_own "browser" o)
                "chromium" (or_introl eq_refl)) as Hb.
  pose proof (includes_or_default Config.validContexts (get_own "context" o)
                "isolated" (or_introl eq_refl)) as Hc.
  pose proof (or_default_truthy (get_own "context" o) (JStr "isolated") eq_refl)
    as Ht.
  unfold Config.validateConfig, Config.parseConfig. fold o.
  cbn [Config.config_browser Config.browser Config.context].
  split.
  - rewrite Ht, <- Hb, <- Hc.
    destruct (Config.includes Config.validBrowsers _);
      destruct (Config.includes Config.validContexts _); cbn;
      split; try (intros [? ?]; discriminate); try done;
      intros H; by apply throw_invalid_throws in H.
  - intros s Hs Hne Hnot.
    assert (Config.includes Config.validBrowsers
              (Some (Config.or_default (get_own "browser" o) (JStr "chromium")))
            = false) as ->.
    { apply not_true_is_false. rewrite Hb.
      intros [Hf | (s' & Heq & Hin)].
      - rewrite Hs in Hf. cbn in Hf. apply negb_false_iff, String.eqb_eq in Hf.
        done.
      - rewrite Hs in Heq. injection Heq as <-. done. }
    cbn. unfold Config.or_default. rewrite Hs. cbn.
    apply String.eqb_neq in Hne. by rewrite Hne.
Qed.

(** ** Command lines *)

Lemma slice2_cons node script args : slice2 (node :: script :: args) = args.
Proof. reflexivity. Qed.

Lemma scan_skips parseInt pre rest o :
  ~ In "--port" pre ->
  HttpMain.scan parseInt (pre ++ rest) o = HttpMain.scan parseInt rest o.
Proof.
  induction pre as [| a pre IH]; cbn; [done |].
  intros Hnot.
  destruct (String.eqb a "--port") eqn:Ha.
  - apply String.eqb_eq in Ha. destruct Hnot. by left.
  - apply IH. intros Hin. apply Hnot. by right.
Qed.

Lemma scan_none parseInt args o :
  ~ In "--port" args -> HttpMain.scan parseInt args o = o.
Proof.
  intros Hnot. rewrite <- (app_nil_r args). by rewrite scan_skips.
Qed.

Lemma scan_port parseInt value rest o :
  HttpMain.scan parseInt ("--port" :: value :: rest) o
  = HttpMain.scan parseInt rest {| HttpMain.port := Some (parseInt value) |}.
Proof. reflexivity. Qed.

(** X17: how the HTTP entry point reads its command line.  Arguments
    before the first ["--port"] are passed over; a ["--port"] that is the
    last argument is ignored; otherwise it takes its successor as the port,
    whatever that successor is, another ["--port"] included, and a later
    pair overrides an earlier one. *)
Theorem X17_port_argument :
  forall (parseInt : string -> Number) (node script : string)
         (pre : list string) (value : string) (rest : list string),
    ~ In "--port" pre ->
    HttpMain.parseArgs parseInt (node :: script :: pre)
    = {| HttpMain.port := None |}
    /\ HttpMain.parseArgs parseInt (node :: script :: pre ++ ["--port"])
       = {| HttpMain.port := None |}
    /\ (~ In "--port" rest ->
        HttpMain.parseArgs parseInt
          (node :: script :: pre ++ "--port" :: value :: rest)
        = {| HttpMain.port := Some (parseInt value) |})
    /\ HttpMain.parseArgs parseInt
         (node :: script :: pre ++ "--port" :: "--port" :: value :: rest)
       = HttpMain.scan parseInt (value :: rest)
           {| HttpMain.port := Some (parseInt "--port") |}
    /\ (forall value', ~ In "--port" rest ->
        HttpMain.parseArgs parseInt
          (node :: script :: pre ++ "--port" :: value :: rest
             ++ ["--port"; value'])
        = {| HttpMain.port := Some (parseInt value') |}).
Proof.
  intros parseInt node script pre value rest Hpre.
  unfold HttpMain.parseArgs. rewrite !slice2_cons.
  split; [| split; [| split; [| split]]].
  - by apply scan_none.
  - by rewrite scan_skips.
  - intros Hrest. rewrite ?slice2_cons, (scan_skips _ _ _ _ Hpre), scan_port.
    by apply scan_none.
  - by rewrite (scan_skips _ _ _ _ Hpre), scan_port.
  - intros value' Hrest.
    by rewrite slice2_cons, (scan_skips _ _ _ _ Hpre), scan_port,
         (scan_skips _ _ _ _ Hrest).
Qed.

Lemma X17_port_argument_witness :
  ~ In "--port" ["--verbose"]
  /\ HttpMain.parseArgs parse_digits
       ["node"; "index.js"; "--verbose"; "--port"; "--port"; "9000"]
     = {| HttpMain.port := Some NaN |}.
Proof.
  assert (Hpre : ~ In "--port" ["--verbose"])
    by (intros [H | []]; discriminate).
  split; [exact Hpre |].
  exact (proj1 (proj2 (proj2 (proj2
           (X17_port_argument parse_digits "node" "index.js" ["--verbose"]
              "9000" [] Hpre))))).
Defined.

(** X18: the HTTP entry point always starts the HTTP server.  The port is
    the one parsed when that is a number other than zero, and 8000 in every
    other case (no [--port], a value that is not a number, or zero); the
    stdio branch of [main] is never taken. *)
Theorem X18_http_entry_never_falls_back_to_stdio :
  forall (parseInt : string -> Number) (argv : list string),
    HttpMain.main parseInt argv
    = HttpMain.startHttpServer
        (match HttpMain.port (HttpMain.parseArgs parseInt argv) with
         | Some (Int z) => if Z.eqb z 0 then Int 8000 else Int z
         | _ => Int 8000
         end)
    /\ HttpMain.main parseInt argv <> HttpMain.stdio
    /\ (~ In "--port" (slice2 argv) ->
        HttpMain.main parseInt argv = HttpMain.startHttpServer (Int 8000)).
Proof.
  intros parseInt argv.
  assert (Hmain : HttpMain.main parseInt argv
                  = HttpMain.startHttpServer
                      (match HttpMain.port (HttpMain.parseArgs parseInt argv) with
                       | Some (Int z) => if Z.eqb z 0 then Int 8000 else Int z
                       | _ => Int 8000
                       end)).
  { unfold HttpMain.main.
    destruct (HttpMain.port (HttpMain.parseArgs parseInt argv)) as [[| z] |];
      try reflexivity.
    cbn. destruct (Z.eqb z 0) eqn:Hz; cbn; [reflexivity |]. by rewrite Hz. }
  split; [exact Hmain |]. split; [by rewrite Hmain |].
  intros Hnone. rewrite Hmain. unfold HttpMain.parseArgs.
  by rewrite scan_none.
Qed.

Lemma indexOf_first x pre rest :
  ~ In x pre -> Cli.indexOf x (pre ++ x :: rest) = Some (length pre).
Proof.
  induction pre as [| a pre IH]; cbn; intros Hnot.
  - by rewrite String.eqb_refl.
  - destruct (String.eqb a x) eqn:Ha.
    + apply String.eqb_eq in Ha. destruct Hnot. by left.
    + rewrite IH; [done |]. intros Hin. apply Hnot. by right.
Qed.

Lemma value_of_first flag pre rest :
  ~ In flag pre ->
  Cli.value_of flag (pre ++ flag :: rest)
  = match rest with
    | value :: _ => if String.eqb value EmptyString then None else Some value
    | [] => None
    end.
Proof.
  intros Hnot. unfold Cli.value_of. rewrite indexOf_first by done.
  assert (nth_error (pre ++ flag :: rest) (S (length pre)) = nth_error rest 0)
    as ->.
  { rewrite nth_error_app2 by lia.
    replace (S (length pre) - length pre) with 1 by lia. reflexivity. }
  destruct rest as [| value rest]; cbn; [done |].
  by destruct (String.eqb value EmptyString).
Qed.

Lemma includes_In x args : Cli.includes x args = true <-> In x args.
Proof.
  unfold Cli.includes. rewrite existsb_exists. split.
  - intros (y & Hin & Heq). apply String.eqb_eq in Heq. by subst.
  - intros Hin. exists x. split; [done | apply String.eqb_refl].
Qed.

(** X19: in the server's own parser the first ["--port"] decides.  Unless
    help is asked for, the port is read from the argument after the first
    ["--port"], later ones being ignored; and when that argument is missing
    or empty no port is set, even if a later ["--port"] has a value. *)
Theorem X19_first_port_flag_decides :
  forall (parseInt : string -> Number) (node script : string)
         (pre rest : list string),
    ~ In "--port" pre ->
    Cli.includes "--help" (pre ++ "--port" :: rest) = false ->
    Cli.includes "-h" (pre ++ "--port" :: rest) = false ->
    exists o,
      Cli.parseArgs parseInt (node :: script :: pre ++ "--port" :: rest)
      = Cli.parsed o
      /\ Cli.port o
         = match rest with
           | value :: _ =>
               if String.eqb value EmptyString then None
               else Some (parseInt value)
           | [] => None
           end.
Proof.
  intros parseInt node script pre rest Hpre Hhelp Hh.
  unfold Cli.parseArgs. rewrite slice2_cons, Hhelp, Hh. cbn.
  eexists. split; [reflexivity |]. cbn.
  rewrite value_of_first by done.
  destruct rest as [| value rest']; [done |].
  by destruct (String.eqb value EmptyString).
Qed.

Lemma X19_first_port_flag_decides_witness :
  ~ In "--port" ["--vision"]
  /\ exists o,
       Cli.parseArgs parse_digits
         ["node"; "cli.js"; "--vision"; "--port"; ""; "--port"; "8080"]
       = Cli.parsed o
       /\ Cli.port o = None.
Proof.
  assert (Hpre : ~ In "--port" ["--vision"])
    by (intros [H | []]; discriminate).
  split; [exact Hpre |].
  exact (X19_first_port_flag_decides parse_digits "node" "cli.js" ["--vision"]
           [EmptyString; "--port"; "8080"] Hpre eq_refl eq_refl).
Defined.

(** X20: a usable port beats [--stdio].  When the command line yields a
    port other than zero the HTTP transport is chosen with that port, with
    or without [--stdio]; without such a port the choice is HTTP exactly
    when [PORT] is set and non-empty and [--stdio] is absent, and then the
    port is the configuration's, not the value of [PORT]. *)
Theorem X20_transport_selection :
  forall (parseInt : string -> Number) (argv : list string)
         (o : Cli.CliOptions) (PORT : option string)
         (config_port : option Number),
    Cli.parseArgs parseInt argv = Cli.parsed o ->
    (forall z, Cli.port o = Some (Int z) -> z <> 0%Z ->
               Cli.select o PORT config_port = Cli.http (Some (Int z)))
    /\ (truthy_number (Cli.port o) = false ->
        Cli.select o PORT config_port
        = if truthy_string PORT && negb (Cli.includes "--stdio" (slice2 argv))
          then Cli.http config_port
          else Cli.stdio_transport).
Proof.
  intros parseInt argv o PORT config_port Hparsed.
  unfold Cli.parseArgs in Hparsed.
  destruct (_ || _); [discriminate |]. injection Hparsed as <-.
  unfold Cli.select, Cli.shouldUseHttp; cbn. split.
  - intros z Hz Hne. rewrite Hz. cbn.
    apply Z.eqb_neq in Hne. by rewrite Hne.
  - intros ->. cbn. by destruct (_ && _).
Qed.

Lemma X20_transport_selection_witness :
  Cli.parseArgs parse_digits ["node"; "cli.js"; "--stdio"; "--port"; "8080"]
  = Cli.parsed {| Cli.port := Some (Int 8080); Cli.stdio := true;
                  Cli.host := None; Cli.vision := false;
                  Cli.headless := true |}
  /\ Cli.select {| Cli.port := Some (Int 8080); Cli.stdio := true;
                   Cli.host := None; Cli.vision := false;
                   Cli.headless := true |} None None
     = Cli.http (Some (Int 8080)).
Proof.
  assert (Hne : 8080%Z <> 0%Z) by discriminate.
  split; [reflexivity |].
  exact (proj1 (X20_transport_selection parse_digits
                  ["node"; "cli.js"; "--stdio"; "--port"; "8080"] _ None None
                  eq_refl) 8080%Z eq_refl Hne).
Defined.

(** X21: the entry point never restricts capabilities.  The configuration
    [main] builds from a parsed command line has no capability list, so the
    sessions of the server it starts see the whole registry: the vision
    tools when [--vision] is given, the snapshot tools otherwise. *)
Theorem X21_entry_point_grants_every_tool :
  forall (parseInt : string -> Number) (argv : list string)
         (o : Cli.CliOptions),
    Cli.parseArgs parseInt argv = Cli.parsed o ->
    tools (Cli.fullConfig o)
    = if Cli.includes "--vision" (slice2 argv) then visionTools
      else snapshotTools.
Proof.
  intros parseInt argv o Hparsed.
  unfold Cli.parseArgs in Hparsed.
  destruct (_ || _); [discriminate |]. injection Hparsed as <-.
  unfold tools, filter_tools, Cli.fullConfig; cbn.
  rewrite filter_all_true by (intros tool; apply keep_absent).
  unfold allTools; cbn. rewrite orb_false_r.
  by destruct (Cli.includes "--vision" (slice2 argv)).
Qed.

Lemma X21_entry_point_grants_every_tool_witness :
  Cli.parseArgs parse_digits ["node"; "cli.js"; "--vision"]
  = Cli.parsed {| Cli.port := None; Cli.stdio := false; Cli.host := None;
                  Cli.vision := true; Cli.headless := true |}
  /\ tools (Cli.fullConfig
              {| Cli.port := None; Cli.stdio := false; Cli.host := None;
                 Cli.vision := true; Cli.headless := true |})
     = visionTools.
Proof.
  split; [reflexivity |].
  exact (X21_entry_point_grants_every_tool parse_digits
           ["node"; "cli.js"; "--vision"] _ eq_refl).
Defined.
